(** * EcoSort AI (src/src/App.tsx): scoring, classifier, uploader and the
      streaming-analysis loop, embedded as Rocq functions.

    Conventions of the embedding.
    - A JavaScript [number] that holds an integer is a [Z] here.  Sums and
      floored quotients of such numbers are exact in the code as long as
      operands and results are safe integers (magnitude below 2^53); the
      statements that depend on it carry that bound.  The accuracy of line
      297 is computed on IEEE-754 doubles ([PrimFloat]), as the code does.
    - A JavaScript string is its sequence of UTF-16 code units ([list N]).
    - [throw], [try]/[catch] and [await] on a collaborator are the
      [Completion] monad below: an awaited promise that rejects is a [Throw]
      at the [await].
    - React state is a record; a closure created during a render holds the
      values of the state variables of that render (they are [const]
      bindings of that invocation of [App]). *)

From Stdlib Require Import ZArith QArith Qround Lia Bool List String Ascii.
From Stdlib Require PrimFloat SpecFloat FloatOps.
From stdpp Require Import base option list gmap.
Import ListNotations.

#[local] Open Scope Z_scope.

(** ** JavaScript strings *)

(** Code units of an ASCII literal of the source. *)
Definition js (s : string) : list N :=
  List.map N_of_ascii (list_ascii_of_string s).

(** The same, with every apostrophe standing for a double quote (U+0022);
    used to write JSON texts. *)
Definition jq (s : string) : list N :=
  List.map (fun c => if N.eqb c 39 then 34%N else c) (js s).

Fixpoint jseqb (a b : list N) : bool :=
  match a, b with
  | [], [] => true
  | x :: a', y :: b' => N.eqb x y && jseqb a' b'
  | _, _ => false
  end.

(** [s.startsWith(prefix)] *)
Fixpoint startsWith (s prefix : list N) : bool :=
  match prefix, s with
  | [], _ => true
  | p :: prefix', c :: s' => N.eqb c p && startsWith s' prefix'
  | _ :: _, [] => false
  end.

(** ** Scoring (App.tsx, lines 11-24, 40-46, 266-281, 297) *)

Module Scoring.

Inductive Category := recycle | trash.

Definition Category_eqb (a b : Category) : bool :=
  match a, b with
  | recycle, recycle | trash, trash => true
  | _, _ => false
  end.

(** [interface GameStats] *)
Record GameStats := mkGameStats {
  score : Z;
  streak : Z;
  totalAnswers : Z;
  correctAnswers : Z;
  level : Z
}.

(** [interface AnalysisResult], for a value that has the declared shape and
    an integral [confidence]. *)
Record AnalysisResult := mkAnalysisResult {
  classification : Category;
  confidence : Z;
  explanation : list N;
  tips : list (list N)
}.

(** [useState<GameStats>({score: 0, streak: 0, totalAnswers: 0,
    correctAnswers: 0, level: 1})] *)
Definition initialGameStats : GameStats :=
  {| score := 0; streak := 0; totalAnswers := 0; correctAnswers := 0; level := 1 |}.

(** [Math.floor] on an exact rational. *)
Definition Math_floor (x : Q) : Z := Qfloor x.

(** [Number.MAX_SAFE_INTEGER], and the integers that a double holds exactly
    together with their neighbours. *)
Definition maxSafeInteger : Z := 9007199254740991.

Definition safeInteger (z : Z) : Prop := - maxSafeInteger <= z <= maxSafeInteger.

(** The double that stands for an integer: the nearest one, ties to even;
    the integer itself when it is safe. *)
Definition toNumber (z : Z) : PrimFloat.float :=
  FloatOps.SF2Prim (SpecFloat.binary_normalize FloatOps.prec FloatOps.emax z 0 false).

(** [Math.round] of a double: the nearest integer, halves towards plus
    infinity; [None] for [NaN] and the infinities. *)
Definition Math_round (x : PrimFloat.float) : option Z :=
  match FloatOps.Prim2SF x with
  | SpecFloat.S754_zero _ => Some 0
  | SpecFloat.S754_finite s m e =>
      let n := if s then Zneg m else Zpos m in
      Some match e with
           | Z0 => n
           | Zpos p => n * Z.pow_pos 2 p
           | Zneg p => (2 * n + Z.pow_pos 2 p) / (2 * Z.pow_pos 2 p)
           end
  | SpecFloat.S754_infinity _ | SpecFloat.S754_nan => None
  end.

(** [x || 0] on a number: [0] is the only falsy integer. *)
Definition or_zero (x : Z) : Z := if x =? 0 then 0 else x.

(** [answer === analysisResult?.classification]: with no current result the
    right-hand side is [undefined] and the comparison is false. *)
Definition isCorrect (analysisResult : option AnalysisResult) (answer : Category) : bool :=
  match analysisResult with
  | Some r => Category_eqb answer (classification r)
  | None => false
  end.

(** [isCorrect ? (analysisResult?.confidence || 0) : 0] *)
Definition points (analysisResult : option AnalysisResult) (answer : Category) : Z :=
  if isCorrect analysisResult answer
  then or_zero (match analysisResult with Some r => confidence r | None => 0 end)
  else 0.

(** The updater that [handleUserAnswer] passes to [setGameStats]; the two
    other setters it calls ([setUserAnswer], [setShowResult]) do not touch
    the statistics.  The sums and the floored quotient are those of the
    code while every operand and every result is a safe integer; from 2^53
    on the doubles of the code round. *)
Definition handleUserAnswer (analysisResult : option AnalysisResult)
    (answer : Category) (prev : GameStats) : GameStats :=
  let isCorrect := isCorrect analysisResult answer in
  let points := points analysisResult answer in
  {| score := score prev + points;
     streak := if isCorrect then streak prev + 1 else 0;
     totalAnswers := totalAnswers prev + 1;
     correctAnswers := correctAnswers prev + (if isCorrect then 1 else 0);
     level := Math_floor (inject_Z (score prev + points) / inject_Z 500) + 1 |}.

(** [gameStats.totalAnswers > 0
      ? Math.round((gameStats.correctAnswers / gameStats.totalAnswers) * 100)
      : 0], with the division and the product of doubles; [None] would be a
    display value that is not finite. *)
Definition accuracy (gameStats : GameStats) : option Z :=
  if totalAnswers gameStats >? 0
  then Math_round
         (PrimFloat.mul
            (PrimFloat.div (toNumber (correctAnswers gameStats))
                           (toNumber (totalAnswers gameStats)))
            (toNumber 100))
  else Some 0.

(** A game: the answers given, each against the result current at the time. *)
Fixpoint play (rounds : list (option AnalysisResult * Category)) (st : GameStats) : GameStats :=
  match rounds with
  | [] => st
  | (r, a) :: rest => play rest (handleUserAnswer r a st)
  end.


(** The statistics, the confidence and every number that the update of
    lines 273-280 computes from them are safe integers. *)
Definition withinSafeIntegers (prev : GameStats) (confidence : Z) : Prop :=
  safeInteger (score prev) /\ safeInteger confidence
  /\ safeInteger (score prev + confidence)
  /\ safeInteger (streak prev) /\ safeInteger (streak prev + 1)
  /\ safeInteger (totalAnswers prev) /\ safeInteger (totalAnswers prev + 1)
  /\ safeInteger (correctAnswers prev) /\ safeInteger (correctAnswers prev + 1).

(** Is the accuracy shown for [c] correct answers out of [t] a whole number
    from 0 to 100 that lies within one half of the percentage? *)
Definition accuracyIsNearest (c t : Z) : bool :=
  match accuracy (mkGameStats 0 0 t c 1) with
  | Some a =>
      (0 <=? a) && (a <=? 100)
      && (200 * c - t <=? 2 * t * a) && (2 * t * a <=? 200 * c + t)
  | None => false
  end.

(** The same for every [t] from 1 to [n] and every [c] from 0 to [t]. *)
Fixpoint accuracyIsNearestUpTo (n : nat) : bool :=
  match n with
  | O => true
  | S k =>
      accuracyIsNearestUpTo k
      && forallb (fun c => accuracyIsNearest (Z.of_nat c) (Z.of_nat n)) (seq 0 (S n))
  end.


End Scoring.

(** ** Exceptions and awaited collaborators *)

Inductive JsError :=
| Error (message : list N)
| TypeError (message : list N)
| SyntaxError (message : list N)
| Rejection (reason : list N).   (* a collaborator's promise rejected *)

Inductive Completion (A : Type) :=
| Normal (a : A)
| Throw (e : JsError).
Arguments Normal {A} a.
Arguments Throw {A} e.

#[global] Instance Completion_ret : MRet Completion := fun A a => Normal a.

#[global] Instance Completion_bind : MBind Completion := fun A B k c =>
  match c with
  | Normal a => k a
  | Throw e => Throw e
  end.

(** [try { body } catch (error) { handler }] *)
Definition try_catch {A} (body : Completion A) (handler : JsError -> Completion A) : Completion A :=
  match body with
  | Normal a => Normal a
  | Throw e => handler e
  end.

(** What an external call does once awaited. *)
Inductive Outcome (A : Type) :=
| Returned (a : A)
| Rejected (reason : list N).
Arguments Returned {A} a.
Arguments Rejected {A} reason.

Definition await {A} (o : Outcome A) : Completion A :=
  match o with
  | Returned a => Normal a
  | Rejected r => Throw (Rejection r)
  end.

(** ** Values that [JSON.parse] can return *)

#[warnings="-register-all"]
Inductive JValue :=
| JNull
| JBool (b : bool)
| JNum (q : Q)
| JStr (s : list N)
| JArr (items : list JValue)
| JObj (fields : list (list N * JValue)).

(** Own property lookup in an object literal or a parsed object. *)
Fixpoint own (fields : list (list N * JValue)) (key : list N) : option JValue :=
  match fields with
  | [] => None
  | (k, v) :: rest => if jseqb k key then Some v else own rest key
  end.

(** [value.key] for a key that no built-in prototype defines (such as
    [classification]): reading a property of [null] throws a TypeError,
    a primitive or an array has no such property ([undefined], here
    [None]). *)
Definition getProp (value : JValue) (key : list N) : Completion (option JValue) :=
  match value with
  | JNull => Throw (TypeError (js "Cannot read properties of null"))
  | JObj fields => Normal (own fields key)
  | _ => Normal None
  end.

(** [!x] *)
Definition falsy (x : option JValue) : bool :=
  match x with
  | None => true
  | Some JNull => true
  | Some (JBool b) => negb b
  | Some (JNum q) => Qeq_bool q 0
  | Some (JStr s) => match s with [] => true | _ => false end
  | Some (JArr _) | Some (JObj _) => false
  end.

(** [literals.includes(x)] for an array of string literals (SameValueZero). *)
Definition includes (literals : list (list N)) (x : option JValue) : bool :=
  match x with
  | Some (JStr s) => existsb (jseqb s) literals
  | _ => false
  end.

(** The field [key] of a value, when the value is an object that has it. *)
Definition field (v : JValue) (key : list N) : option JValue :=
  match v with
  | JObj fields => own fields key
  | _ => None
  end.

(** [classification] is exactly ["recycle"] or ["trash"]. *)
Definition validClassification (v : JValue) : Prop :=
  field v (js "classification") = Some (JStr (js "recycle"))
  \/ field v (js "classification") = Some (JStr (js "trash")).

(** [confidence] is an integer from 70 to 99. *)
Definition confidenceInRange (v : JValue) : Prop :=
  exists q, field v (js "confidence") = Some (JNum q)
    /\ Pos.eqb (Qden (Qred q)) 1 = true /\ 70 <= Qnum (Qred q) <= 99.

(** ** Cleaning the AI reply (App.tsx, line 204) *)

(** Length of the match of [/```json\n?|\n?```/] that starts at the head of
    [s], or [0] when neither alternative matches there.  The first
    alternative is tried first; [\n?] is greedy. *)
Definition fenceMatch (s : list N) : nat :=
  if startsWith s (js "```json")
  then (if startsWith (List.skipn 7 s) [10%N] then 8%nat else 7%nat)
  else if startsWith s (10%N :: js "```") then 4%nat
  else if startsWith s (js "```") then 3%nat
  else 0%nat.

(** [text.replace(/```json\n?|\n?```/g, '')]: every match, found from left
    to right, is deleted; [skip] counts the code units of the current match
    that are still to be dropped. *)
Fixpoint replaceFencesFrom (skip : nat) (s : list N) : list N :=
  match s with
  | [] => []
  | c :: rest =>
      match skip with
      | S k => replaceFencesFrom k rest
      | O =>
          match fenceMatch s with
          | O => c :: replaceFencesFrom O rest
          | S k => replaceFencesFrom k rest
          end
      end
  end.

Definition replaceFences (text : list N) : list N := replaceFencesFrom 0 text.

(** White space and line terminators of ECMAScript, as [String.prototype.trim]
    removes them. *)
Definition isTrimSpace (c : N) : bool :=
  existsb (N.eqb c)
    [9; 10; 11; 12; 13; 32; 160; 5760; 8232; 8233; 8239; 8287; 12288; 65279]%N
  || (N.leb 8192 c && N.leb c 8202).

Fixpoint trimStart (s : list N) : list N :=
  match s with
  | c :: rest => if isTrimSpace c then trimStart rest else s
  | [] => []
  end.

Definition trim (s : list N) : list N :=
  List.rev (trimStart (List.rev (trimStart s))).

Definition cleanedText (text : list N) : list N := trim (replaceFences text).

(** ** Uploader and Classifier (App.tsx, lines 140-224) *)

(** The [catch] branch of [analyzeImageFromUrl] (lines 217-222). *)
Definition classifierFallback : JValue :=
  JObj [ (js "classification", JStr (js "trash"));
         (js "confidence", JNum (inject_Z 75));
         (js "explanation", JStr (js "Unable to analyze this image clearly. When in doubt, it's safer to put items in trash to avoid contaminating recycling."));
         (js "tips", JArr [ JStr (js "Take a clearer photo if possible");
                            JStr (js "Check your local recycling guidelines");
                            JStr (js "When unsure, choose trash to be safe") ]) ].

(** The [catch] branch of the interval callback (lines 248-253). *)
Definition streamingFallback : JValue :=
  JObj [ (js "classification", JStr (js "trash"));
         (js "confidence", JNum (inject_Z 75));
         (js "explanation", JStr (js "Unable to analyze this frame. Please try adjusting the camera angle or lighting."));
         (js "tips", JArr [ JStr (js "Ensure good lighting");
                            JStr (js "Hold the camera steady");
                            JStr (js "Make sure the object is clearly visible") ]) ].

(** [`${publicUrl}`] *)
Definition showUrl (publicUrl : option (list N)) : list N :=
  match publicUrl with
  | Some u => u
  | None => js "undefined"
  end.

(** [!s] for a string that may be absent ([!publicUrl], [!imageUrl],
    [!frame]): [undefined], [null] and the empty string are falsy. *)
Definition falsyString (s : option (list N)) : bool :=
  match s with
  | None => true
  | Some [] => true
  | Some (_ :: _) => false
  end.

Definition uploadFailure : JsError := Error (js "Failed to upload image for analysis").

(** [uploadImageToStorage] (lines 140-162).  [fetched] is what
    [fetch(dataUrl)] and [response.blob()] do, [uploaded] what
    [blink.storage.upload] does: the [publicUrl] of its reply, if any.  For
    an absent [publicUrl] the test [!publicUrl || ...] holds by its left
    operand and [startsWith] is not reached. *)
Definition uploadImageToStorage (fetched : Outcome unit)
    (uploaded : Outcome (option (list N))) : Completion (list N) :=
  try_catch
    (_ ← await fetched;
     publicUrl ← await uploaded;
     match publicUrl with
     | Some url =>
         if falsyString publicUrl || negb (startsWith url (js "https://"))
         then Throw (Error (js "Invalid storage URL: " ++ showUrl publicUrl))
         else Normal url
     | None => Throw (Error (js "Invalid storage URL: " ++ showUrl publicUrl))
     end)
    (fun error => Throw uploadFailure).

Section Classifier.

(** [JSON.parse] of the host: [None] is a thrown SyntaxError. *)
Variable JSON_parse : list N -> option JValue.

Definition parseJSON (text : list N) : Completion JValue :=
  match JSON_parse text with
  | Some v => Normal v
  | None => Throw (SyntaxError (js "Unexpected token"))
  end.

(** [analyzeImageFromUrl] (lines 164-224).  [generated] is what
    [blink.ai.generateText] does: the [text] of its reply. *)
Definition analyzeImageFromUrl (imageUrl : list N)
    (generated : Outcome (list N)) : Completion JValue :=
  try_catch
    (if falsyString (Some imageUrl) || negb (startsWith imageUrl (js "https://"))
     then Throw (Error (js "Invalid image URL for AI analysis: " ++ imageUrl ++ js ". Must be HTTPS."))
     else
       text ← await generated;
       let cleanedText := cleanedText text in
       result ← parseJSON cleanedText;
       classification ← getProp result (js "classification");
       if falsy classification || negb (includes [js "recycle"; js "trash"] classification)
       then Throw (Error (js "Invalid classification"))
       else Normal result)
    (fun error => Normal classifierFallback).

(** The [try] block of the interval callback, after the throttle and the
    capture (lines 241-254): the value handed to [setAnalysisResult]. *)
Definition analyzeFrame (fetched : Outcome unit) (uploaded : Outcome (option (list N)))
    (generated : Outcome (list N)) : JValue :=
  match (imageUrl ← uploadImageToStorage fetched uploaded;
         analyzeImageFromUrl imageUrl generated) with
  | Normal result => result
  | Throw error => streamingFallback
  end.

End Classifier.

(** ** A model of the host's [JSON.parse] (ECMA-404 grammar)

    The Classifier is verified for an arbitrary [JSON_parse]; this executable
    model is what the concrete runs below use.  Numbers are read exactly. *)

Module Json.

Definition isWs (c : N) : bool := existsb (N.eqb c) [32; 9; 10; 13]%N.

Fixpoint skipWs (s : list N) : list N :=
  match s with
  | c :: rest => if isWs c then skipWs rest else s
  | [] => []
  end.

Definition isDigit (c : N) : bool := N.leb 48 c && N.leb c 57.

(** A maximal run of decimal digits: its value after [acc], its length, and
    what follows. *)
Fixpoint digits (acc : Z) (count : nat) (s : list N) : Z * nat * list N :=
  match s with
  | c :: rest =>
      if isDigit c then digits (10 * acc + (Z.of_N c - 48)) (S count) rest
      else (acc, count, s)
  | [] => (acc, count, [])
  end.

Definition pow10 (e : Z) : Q :=
  match e with
  | Z0 => 1%Q
  | Zpos p => inject_Z (Z.pow_pos 10 p)
  | Zneg p => (1 # Pos.pow 10 p)%Q
  end.

(** The parts of a number: an optional minus sign; [0] or a digit run that
    does not start with [0]; an optional fraction (a dot and at least one
    digit), which continues the mantissa and counts its digits; an optional
    exponent ([e] or [E], an optional sign, at least one digit). *)
Definition numberSign (s : list N) : bool * list N :=
  match s with
  | 45%N :: r => (true, r)
  | _ => (false, s)
  end.

Definition integerPart (s : list N) : option (Z * list N) :=
  match s with
  | 48%N :: r => Some (0, r)
  | c :: _ => if isDigit c then Some (fst (fst (digits 0 0 s)), snd (digits 0 0 s)) else None
  | [] => None
  end.

Definition fractionPart (mantissa : Z) (s : list N) : option (Z * Z * list N) :=
  match s with
  | 46%N :: r =>
      match snd (fst (digits mantissa 0 r)) with
      | O => None
      | n => Some (fst (fst (digits mantissa 0 r)), Z.of_nat n, snd (digits mantissa 0 r))
      end
  | _ => Some (mantissa, 0, s)
  end.

Definition exponentPart (s : list N) : option (Z * list N) :=
  match s with
  | c :: r =>
      if N.eqb c 101 || N.eqb c 69 then
        let signed := match r with
                      | 45%N :: r' => (true, r')
                      | 43%N :: r' => (false, r')
                      | _ => (false, r)
                      end in
        match snd (fst (digits 0 0 (snd signed))) with
        | O => None
        | _ => Some ((if fst signed then - fst (fst (digits 0 0 (snd signed)))
                      else fst (fst (digits 0 0 (snd signed)))),
                     snd (digits 0 0 (snd signed)))
        end
      else Some (0, s)
  | [] => Some (0, s)
  end.

Definition parseNumber (s : list N) : option (Q * list N) :=
  match integerPart (snd (numberSign s)) with
  | None => None
  | Some (i, s1) =>
      match fractionPart i s1 with
      | None => None
      | Some (m, scale, s2) =>
          match exponentPart s2 with
          | None => None
          | Some (e, s3) =>
              let q := (inject_Z m * pow10 (e - scale))%Q in
              Some (Qred (if fst (numberSign s) then - q else q)%Q, s3)
          end
      end
  end.

Definition hexDigit (c : N) : option N :=
  if N.leb 48 c && N.leb c 57 then Some (c - 48)%N
  else if N.leb 65 c && N.leb c 70 then Some (c - 55)%N
  else if N.leb 97 c && N.leb c 102 then Some (c - 87)%N
  else None.

Definition simpleEscape (c : N) : option N :=
  if N.eqb c 34 then Some 34%N          (* quotation mark *)
  else if N.eqb c 92 then Some 92%N     (* backslash *)
  else if N.eqb c 47 then Some 47%N     (* slash *)
  else if N.eqb c 98 then Some 8%N      (* backspace *)
  else if N.eqb c 102 then Some 12%N    (* form feed *)
  else if N.eqb c 110 then Some 10%N    (* line feed *)
  else if N.eqb c 114 then Some 13%N    (* carriage return *)
  else if N.eqb c 116 then Some 9%N     (* tab *)
  else None.

(** The characters of a string literal after its opening quote, up to and
    including the closing quote. *)
Fixpoint parseStringBody (s : list N) : option (list N * list N) :=
  match s with
  | [] => None
  | 34%N :: rest => Some ([], rest)
  | 92%N :: 117%N :: h1 :: h2 :: h3 :: h4 :: rest =>
      match hexDigit h1, hexDigit h2, hexDigit h3, hexDigit h4 with
      | Some a, Some b, Some c, Some d =>
          match parseStringBody rest with
          | Some (str, rest') => Some ((4096 * a + 256 * b + 16 * c + d)%N :: str, rest')
          | None => None
          end
      | _, _, _, _ => None
      end
  | 92%N :: e :: rest =>
      match simpleEscape e with
      | Some c =>
          match parseStringBody rest with
          | Some (str, rest') => Some (c :: str, rest')
          | None => None
          end
      | None => None
      end
  | [92%N] => None
  | c :: rest =>
      if N.ltb c 32 then None
      else match parseStringBody rest with
           | Some (str, rest') => Some (c :: str, rest')
           | None => None
           end
  end.

(** Defining a property: a repeated key keeps its place and takes the new
    value. *)
Fixpoint setProp (fields : list (list N * JValue)) (key : list N) (v : JValue)
    : list (list N * JValue) :=
  match fields with
  | [] => [(key, v)]
  | (k, w) :: rest => if jseqb k key then (k, v) :: rest else (k, w) :: setProp rest key v
  end.

(** What a parser of values answers: a value and the text after it, a
    syntax error, or that its recursion budget was too small. *)
Inductive Parsed :=
| Done (v : JValue) (rest : list N)
| Malformed
| OutOfFuel.

Fixpoint parseValue (fuel : nat) (s : list N) : Parsed :=
  match fuel with
  | O => OutOfFuel
  | S fuel' =>
      match skipWs s with
      | [] => Malformed
      | c :: rest =>
          if N.eqb c 123 then
            match skipWs rest with
            | 125%N :: rest' => Done (JObj []) rest'
            | _ => parseMembers fuel' [] rest
            end
          else if N.eqb c 91 then
            match skipWs rest with
            | 93%N :: rest' => Done (JArr []) rest'
            | _ => parseElements fuel' [] rest
            end
          else if N.eqb c 34 then
            match parseStringBody rest with
            | Some (str, rest') => Done (JStr str) rest'
            | None => Malformed
            end
          else if startsWith (c :: rest) (js "null") then Done JNull (List.skipn 3 rest)
          else if startsWith (c :: rest) (js "true") then Done (JBool true) (List.skipn 3 rest)
          else if startsWith (c :: rest) (js "false") then Done (JBool false) (List.skipn 4 rest)
          else match parseNumber (c :: rest) with
               | Some (q, rest') => Done (JNum q) rest'
               | None => Malformed
               end
      end
  end
with parseElements (fuel : nat) (acc : list JValue) (s : list N) : Parsed :=
  match fuel with
  | O => OutOfFuel
  | S fuel' =>
      match parseValue fuel' s with
      | Done v rest =>
          match skipWs rest with
          | 44%N :: rest' => parseElements fuel' (acc ++ [v]) rest'
          | 93%N :: rest' => Done (JArr (acc ++ [v])) rest'
          | _ => Malformed
          end
      | failure => failure
      end
  end
with parseMembers (fuel : nat) (acc : list (list N * JValue)) (s : list N) : Parsed :=
  match fuel with
  | O => OutOfFuel
  | S fuel' =>
      match skipWs s with
      | 34%N :: rest =>
          match parseStringBody rest with
          | None => Malformed
          | Some (key, rest1) =>
              match skipWs rest1 with
              | 58%N :: rest2 =>
                  match parseValue fuel' rest2 with
                  | Done v rest3 =>
                      match skipWs rest3 with
                      | 44%N :: rest4 => parseMembers fuel' (setProp acc key v) rest4
                      | 125%N :: rest4 => Done (JObj (setProp acc key v)) rest4
                      | _ => Malformed
                      end
                  | failure => failure
                  end
              | _ => Malformed
              end
          end
      | _ => Malformed
      end
  end.

(** [JSON.parse(text)]: one value, white space around it, nothing else.
    The budget is enough for every text ([JsonFacts.fuel_suffices]). *)
Definition parse (text : list N) : option JValue :=
  match parseValue (2 * length text + 1) text with
  | Done v rest => match skipWs rest with [] => Some v | _ => None end
  | Malformed | OutOfFuel => None
  end.

End Json.

(** ** The streaming loop (App.tsx, lines 37-55, 111-122, 226-264, 283-288) *)

Module Streaming.

(** An analysis attempt that passed the throttle and the capture, and now
    awaits the storage and AI collaborators. *)
Record Attempt := mkAttempt {
  startedAt : Z;
  attemptFrame : option (list N)
}.

(** The component: its React state, its interval ref, and what the host
    holds for it (live interval timers, pending attempts, stopped camera
    streams).  A live timer is stored with the value of [lastAnalysisTime]
    that its callback closed over when [startStreamingAnalysis] created it. *)
Record World := mkWorld {
  analysisResult : option JValue;
  showResult : bool;
  userAnswer : option Scoring.Category;
  isCameraMode : bool;
  stream : option nat;
  isStreamingAnalysis : bool;
  lastAnalysisTime : Z;
  analysisIntervalRef : option nat;
  intervals : gmap nat Z;
  nextTimerId : nat;
  inFlight : list Attempt;
  stoppedStreams : list nat
}.

Definition initialWorld : World :=
  {| analysisResult := None; showResult := false; userAnswer := None;
     isCameraMode := false; stream := None; isStreamingAnalysis := false;
     lastAnalysisTime := 0; analysisIntervalRef := None;
     intervals := ∅; nextTimerId := 1; inFlight := []; stoppedStreams := [] |}.

Definition setAnalysisResult (r : option JValue) (w : World) : World :=
  mkWorld r (showResult w) (userAnswer w) (isCameraMode w) (stream w)
    (isStreamingAnalysis w) (lastAnalysisTime w) (analysisIntervalRef w)
    (intervals w) (nextTimerId w) (inFlight w) (stoppedStreams w).

Definition setShowResult (b : bool) (w : World) : World :=
  mkWorld (analysisResult w) b (userAnswer w) (isCameraMode w) (stream w)
    (isStreamingAnalysis w) (lastAnalysisTime w) (analysisIntervalRef w)
    (intervals w) (nextTimerId w) (inFlight w) (stoppedStreams w).

Definition setUserAnswer (a : option Scoring.Category) (w : World) : World :=
  mkWorld (analysisResult w) (showResult w) a (isCameraMode w) (stream w)
    (isStreamingAnalysis w) (lastAnalysisTime w) (analysisIntervalRef w)
    (intervals w) (nextTimerId w) (inFlight w) (stoppedStreams w).

Definition setIsCameraMode (b : bool) (w : World) : World :=
  mkWorld (analysisResult w) (showResult w) (userAnswer w) b (stream w)
    (isStreamingAnalysis w) (lastAnalysisTime w) (analysisIntervalRef w)
    (intervals w) (nextTimerId w) (inFlight w) (stoppedStreams w).

Definition setStream (s : option nat) (w : World) : World :=
  mkWorld (analysisResult w) (showResult w) (userAnswer w) (isCameraMode w) s
    (isStreamingAnalysis w) (lastAnalysisTime w) (analysisIntervalRef w)
    (intervals w) (nextTimerId w) (inFlight w) (stoppedStreams w).

Definition setIsStreamingAnalysis (b : bool) (w : World) : World :=
  mkWorld (analysisResult w) (showResult w) (userAnswer w) (isCameraMode w) (stream w)
    b (lastAnalysisTime w) (analysisIntervalRef w)
    (intervals w) (nextTimerId w) (inFlight w) (stoppedStreams w).

Definition setLastAnalysisTime (t : Z) (w : World) : World :=
  mkWorld (analysisResult w) (showResult w) (userAnswer w) (isCameraMode w) (stream w)
    (isStreamingAnalysis w) t (analysisIntervalRef w)
    (intervals w) (nextTimerId w) (inFlight w) (stoppedStreams w).

(** [analysisIntervalRef.current = setInterval(callback, 500)]: the host
    registers the callback under a fresh id, and the ref takes the id. *)
Definition setIntervalIntoRef (captured : Z) (w : World) : World :=
  mkWorld (analysisResult w) (showResult w) (userAnswer w) (isCameraMode w) (stream w)
    (isStreamingAnalysis w) (lastAnalysisTime w) (Some (nextTimerId w))
    (<[nextTimerId w := captured]> (intervals w)) (S (nextTimerId w))
    (inFlight w) (stoppedStreams w).

(** [if (analysisIntervalRef.current) { clearInterval(analysisIntervalRef.current);
    analysisIntervalRef.current = null }]; the id [0] would be falsy. *)
Definition clearIntervalOfRef (w : World) : World :=
  match analysisIntervalRef w with
  | Some id =>
      if Nat.eqb id 0 then w
      else mkWorld (analysisResult w) (showResult w) (userAnswer w) (isCameraMode w)
             (stream w) (isStreamingAnalysis w) (lastAnalysisTime w) None
             (delete id (intervals w)) (nextTimerId w) (inFlight w) (stoppedStreams w)
  | None => w
  end.

Definition setInFlight (l : list Attempt) (w : World) : World :=
  mkWorld (analysisResult w) (showResult w) (userAnswer w) (isCameraMode w) (stream w)
    (isStreamingAnalysis w) (lastAnalysisTime w) (analysisIntervalRef w)
    (intervals w) (nextTimerId w) l (stoppedStreams w).

Definition stopTracks (s : nat) (w : World) : World :=
  mkWorld (analysisResult w) (showResult w) (userAnswer w) (isCameraMode w) (stream w)
    (isStreamingAnalysis w) (lastAnalysisTime w) (analysisIntervalRef w)
    (intervals w) (nextTimerId w) (inFlight w) (s :: stoppedStreams w).

(** [startCamera] after [getUserMedia] resolved (lines 99-100). *)
Definition cameraStarted (mediaStream : nat) (w : World) : World :=
  setIsCameraMode true (setStream (Some mediaStream) w).

(** [stopCamera] (lines 111-122); [capturedStream] is the [stream] of the
    render that created this [useCallback] closure. *)
Definition stopCamera (capturedStream : option nat) (w : World) : World :=
  let w :=
    match capturedStream with
    | Some s => setStream None (stopTracks s w)
    | None => w
    end in
  clearIntervalOfRef (setIsStreamingAnalysis false (setIsCameraMode false w)).

(** [startStreamingAnalysis] (lines 226-256): the callback handed to
    [setInterval] is created here, in the render whose [lastAnalysisTime]
    is the current one. *)
Definition startStreamingAnalysis (w : World) : World :=
  setIntervalIntoRef (lastAnalysisTime w)
    (setUserAnswer None (setShowResult false (setAnalysisResult None
      (setIsStreamingAnalysis true w)))).

(** [stopStreamingAnalysis] (lines 258-264). *)
Definition stopStreamingAnalysis (w : World) : World :=
  clearIntervalOfRef (setIsStreamingAnalysis false w).

(** [resetGame] (lines 283-288). *)
Definition resetGame (w : World) : World :=
  stopStreamingAnalysis (setUserAnswer None (setShowResult false (setAnalysisResult None w))).

(** Does the interval callback get past its two early returns (lines
    233-237)?  [capturedLastAnalysisTime] is the variable the callback
    closed over; [frame] is what [captureFrame] returned, a data URL or
    [null]. *)
Definition passesThrottle (capturedLastAnalysisTime now : Z) (frame : option (list N)) : bool :=
  negb (now - capturedLastAnalysisTime <? 2000) && negb (falsyString frame).

(** The synchronous part of the interval callback (lines 233-239): up to
    the first [await]. *)
Definition intervalCallback (capturedLastAnalysisTime now : Z)
    (frame : option (list N)) (w : World) : World :=
  if now - capturedLastAnalysisTime <? 2000 then w
  else if falsyString frame then w
  else setInFlight (inFlight w ++ [mkAttempt now frame])
         (setLastAnalysisTime now w).

Inductive Event :=
| CameraStarted (mediaStream : nat)
| StopCamera (capturedStream : option nat)
| ClickStartAnalysis
| ClickStopAnalysis
| ClickAnswer (answer : Scoring.Category)
| ClickReset
| TimerFires (id : nat) (now : Z) (frame : option (list N))
| AttemptSettles (k : nat) (fetched : Outcome unit)
    (uploaded : Outcome (option (list N))) (generated : Outcome (list N)).

(** What [handleUserAnswer] does besides updating the statistics (lines
    267-268); the statistics are the subject of [Scoring]. *)
Definition answerGiven (answer : Scoring.Category) (w : World) : World :=
  setShowResult true (setUserAnswer (Some answer) w).

Section Loop.

Variable JSON_parse : list N -> option JValue.

(** The rest of the interval callback for the [k]-th pending attempt (lines
    241-254): both collaborators have answered. *)
Definition attemptSettles (k : nat) (fetched : Outcome unit)
    (uploaded : Outcome (option (list N))) (generated : Outcome (list N))
    (w : World) : World :=
  match inFlight w !! k with
  | Some _ =>
      setAnalysisResult (Some (analyzeFrame JSON_parse fetched uploaded generated))
        (setInFlight (List.firstn k (inFlight w) ++ List.skipn (S k) (inFlight w)) w)
  | None => w
  end.

Definition step (e : Event) (w : World) : World :=
  match e with
  | CameraStarted s => cameraStarted s w
  | StopCamera s => stopCamera s w
  | ClickStartAnalysis => startStreamingAnalysis w
  | ClickStopAnalysis => stopStreamingAnalysis w
  | ClickAnswer a => answerGiven a w
  | ClickReset => resetGame w
  | TimerFires id now frame =>
      match intervals w !! id with
      | Some captured => intervalCallback captured now frame w
      | None => w
      end
  | AttemptSettles k f u g => attemptSettles k f u g w
  end.

Fixpoint run (events : list Event) (w : World) : World :=
  match events with
  | [] => w
  | e :: rest => run rest (step e w)
  end.

(** What the rendered page offers (lines 415-421, 499-541, 593): the start
    button only while no analysis is streaming, the stop button only while
    one is.  Timers, collaborators and [stopCamera] (also run by the effect
    cleanup) are not gated by the page. *)
Definition offered (w : World) (e : Event) : bool :=
  match e with
  | ClickStartAnalysis => isCameraMode w && negb (isStreamingAnalysis w)
  | ClickStopAnalysis => isCameraMode w && isStreamingAnalysis w
  | ClickAnswer _ =>
      isCameraMode w && isStreamingAnalysis w
      && match analysisResult w with Some _ => true | None => false end
  | ClickReset =>
      showResult w && match analysisResult w with Some _ => true | None => false end
  | _ => true
  end.

(** The states that sequences of offered events lead to.  The cleanup of
    the effect of lines 290-295 is a free [StopCamera] event here, not one
    forced after every camera start, so this set contains every state of
    the mounted page and more: it serves as a hypothesis of invariants,
    and membership in it does not show that the page gets there (see
    [Effects.Settled] for the page with its effect). *)
Inductive Reachable : World -> Prop :=
| Reachable_initial : Reachable initialWorld
| Reachable_step w e : Reachable w -> offered w e = true -> Reachable (step e w).

End Loop.

(** The ref holds the page's only live interval timer, and there is none
    while no analysis is streaming. *)
Definition timerOwned (w : World) : Prop :=
  nextTimerId w <> 0%nat
  /\ (isStreamingAnalysis w = false -> intervals w = ∅)
  /\ match analysisIntervalRef w with
     | Some id => id <> 0%nat /\ forall j, j <> id -> intervals w !! j = None
     | None => intervals w = ∅
     end.




Definition isStop (e : Event) : bool :=
  match e with
  | StopCamera _ | ClickStopAnalysis => true
  | _ => false
  end.



End Streaming.

(** ** Reading a parsed reply at its declared type

    [JSON.parse(cleanedText) as AnalysisResult] is an unchecked cast.  A
    value is an [AnalysisResult] of the scoring model when it has the four
    declared fields at their declared types and its [confidence] is an
    integer. *)

Definition asCategory (s : list N) : option Scoring.Category :=
  if jseqb s (js "recycle") then Some Scoring.recycle
  else if jseqb s (js "trash") then Some Scoring.trash
  else None.

Definition asInteger (q : Q) : option Z :=
  if Pos.eqb (Qden (Qred q)) 1 then Some (Qnum (Qred q)) else None.

Fixpoint asStrings (items : list JValue) : option (list (list N)) :=
  match items with
  | [] => Some []
  | JStr s :: rest =>
      match asStrings rest with
      | Some l => Some (s :: l)
      | None => None
      end
  | _ => None
  end.

Definition asAnalysisResult (v : JValue) : option Scoring.AnalysisResult :=
  match v with
  | JObj fields =>
      match own fields (js "classification"), own fields (js "confidence"),
            own fields (js "explanation"), own fields (js "tips") with
      | Some (JStr c), Some (JNum q), Some (JStr e), Some (JArr items) =>
          match asCategory c, asInteger q, asStrings items with
          | Some c', Some q', Some t' => Some (Scoring.mkAnalysisResult c' q' e t')
          | _, _, _ => None
          end
      | _, _, _, _ => None
      end
  | _ => None
  end.

(** ** What the page displays (App.tsx, lines 397, 555-561) *)

Module Display.
Import Scoring Streaming.


Definition categoryName (c : Category) : list N :=
  match c with
  | recycle => js "recycle"
  | trash => js "trash"
  end.

(** [userAnswer === analysisResult.classification], as the result panel
    evaluates it (lines 557 and 560) inside [showResult && analysisResult &&
    ...]: [None] when the panel is not rendered, otherwise whether the badge
    reads "Correct!". *)
Definition verdictShown (w : World) : option bool :=
  if showResult w && negb (falsy (analysisResult w))
  then Some match userAnswer w, analysisResult w with
            | Some a, Some v =>
                match field v (js "classification") with
                | Some (JStr s) => jseqb (categoryName a) s
                | _ => false
                end
            | _, _ => false
            end
  else None.

End Display.

(** ** Summaries of a game, to state what the statistics count *)

Module Rounds.
Import Scoring.

Definition roundCorrect (round : option AnalysisResult * Category) : bool :=
  isCorrect (fst round) (snd round).

(** The confidence of the result when the round was answered correctly. *)
Definition earned (round : option AnalysisResult * Category) : Z :=
  match fst round with
  | Some r => if Category_eqb (snd round) (classification r) then confidence r else 0
  | None => 0
  end.

Fixpoint sumZ (l : list Z) : Z :=
  match l with
  | [] => 0
  | x :: rest => x + sumZ rest
  end.

Fixpoint takeWhile {A} (f : A -> bool) (l : list A) : list A :=
  match l with
  | x :: rest => if f x then x :: takeWhile f rest else []
  | [] => []
  end.

(** A game whose counters and whose running score stay safe integers: it
    has at most [maxSafeInteger] rounds, and the magnitudes of the points
    earned add up to at most [maxSafeInteger]. *)
Definition safeGame (rounds : list (option AnalysisResult * Category)) : Prop :=
  Z.of_nat (length rounds) <= maxSafeInteger
  /\ sumZ (List.map (fun round => Z.abs (earned round)) rounds) <= maxSafeInteger.

(** The correct rounds at the end of the game, most recent first. *)
Definition trailingCorrect (rounds : list (option AnalysisResult * Category))
    : list (option AnalysisResult * Category) :=
  takeWhile roundCorrect (List.rev rounds).

End Rounds.

(** ** The unmount effect (App.tsx, lines 111-122 and 290-295)

    [stopCamera] is memoised on [stream] and is the only dependency of the
    effect whose cleanup calls it.  After a render in which [stream] differs
    from the [stream] of the render that registered the effect, React runs
    the registered cleanup, which calls the [stopCamera] of that earlier
    render, and registers the cleanup of the new render. *)

Module Effects.
Import Streaming.

(** The component between two events: its world, and the [stream] that the
    registered cleanup's [stopCamera] closed over. *)
Record Mounted := mkMounted {
  world : World;
  cleanupStream : option nat
}.

Definition mountedInitially : Mounted := mkMounted initialWorld None.

(** One commit. The state updates of the cleanup take effect in the next
    render. *)
Definition commit (m : Mounted) : Mounted :=
  if bool_decide (stream (world m) = cleanupStream m) then m
  else mkMounted (stopCamera (cleanupStream m) (world m)) (stream (world m)).

(** The renders that follow an event, until nothing changes ([settle_stable]). *)
Definition settle (m : Mounted) : Mounted := commit (commit m).

(** What can happen once the effects have run: the toggle button calls the
    [stopCamera] of the current render (lines 415-421), and the stream that
    [getUserMedia] resolves with is a new one. *)
Definition offeredMounted (w : World) (e : Event) : bool :=
  match e with
  | CameraStarted mediaStream => negb (bool_decide (stream w = Some mediaStream))
  | StopCamera s => isCameraMode w && bool_decide (s = stream w)
  | _ => offered w e
  end.

Section Lifecycle.

Variable JSON_parse : list N -> option JValue.

(** An event is handled, then React renders and runs the effects. *)
Definition dispatch (e : Event) (m : Mounted) : Mounted :=
  settle (mkMounted (step JSON_parse e (world m)) (cleanupStream m)).

Inductive Settled : Mounted -> Prop :=
| Settled_initially : Settled mountedInitially
| Settled_dispatch m e :
    Settled m -> offeredMounted (world m) e = true -> Settled (dispatch e m).

End Lifecycle.

End Effects.

(** * The recursion budget of the JSON model *)

Module JsonFacts.
Import Json.

Lemma skipWs_length (s : list N) : (length (skipWs s) <= length s)%nat.
Proof.
  induction s as [|c s IH]; simpl; [lia|].
  destruct (isWs c); simpl; lia.
Qed.

Lemma skipWs_cons (s rest : list N) (c : N) :
  skipWs s = c :: rest -> (S (length rest) <= length s)%nat.
Proof. intros H. pose proof (skipWs_length s) as Hl. rewrite H in Hl. exact Hl. Qed.

Lemma digits_length (s : list N) (acc : Z) (count : nat) :
  (length (snd (digits acc count s)) <= length s)%nat.
Proof.
  revert acc count. induction s as [|c s IH]; intros acc count; simpl; [lia|].
  destruct (isDigit c); simpl; [|lia].
  specialize (IH (10 * acc + (Z.of_N c - 48)) (S count)). lia.
Qed.

Lemma parseStringBody_length (n : nat) (s str rest : list N) :
  (length s <= n)%nat -> parseStringBody s = Some (str, rest) ->
  (length rest <= length s)%nat.
Proof.
  revert s str rest. induction n as [|n IH]; intros s str rest Hn H.
  - destruct s; [discriminate H | simpl in Hn; lia].
  - destruct s as [|c s]; [discriminate H|].
    simpl in Hn. cbn [parseStringBody] in H.
    repeat match type of H with
    | Some _ = Some _ => injection H as <- <-
    | None = Some _ => discriminate H
    | context [match ?x with _ => _ end] =>
        match x with
        | parseStringBody ?t =>
            let E := fresh "E" in
            destruct x as [[? ?]|] eqn:E;
            [apply IH in E; [|simpl in *; lia] |]
        | _ => destruct x
        end
    end; simpl in *; try lia.
Qed.


Lemma parseNumber_length (s rest : list N) (q : Q) :
  parseNumber s = Some (q, rest) -> (length rest <= length s)%nat.
Proof.
  unfold parseNumber. intros H.
  assert (H0 : (length (snd (numberSign s)) <= length s)%nat).
  { unfold numberSign. destruct s as [|c s]; simpl; [lia|].
    destruct (N.eqb_spec c 45) as [->|Hc]; simpl; [lia|].
    destruct c as [|p]; simpl; [lia|].
    repeat (destruct p as [p|p|]; simpl; try lia). }
  set (s0 := snd (numberSign s)) in *. clearbody s0.
  destruct (integerPart s0) as [[i s1]|] eqn:E1; [|discriminate H].
  assert (H1 : (length s1 <= length s0)%nat).
  { unfold integerPart in E1. pose proof (digits_length s0 0 0) as Hd.
    destruct s0 as [|c s0']; [discriminate E1|].
    destruct (isDigit c);
      repeat match type of E1 with
      | Some _ = Some _ => injection E1 as <- <-
      | None = Some _ => discriminate E1
      | context [match ?x with _ => _ end] => destruct x
      end; simpl in *; lia. }
  destruct (fractionPart i s1) as [[[m scale] s2]|] eqn:E2; [|discriminate H].
  assert (H2 : (length s2 <= length s1)%nat).
  { unfold fractionPart in E2.
    destruct s1 as [|c s1']; [injection E2 as <- <- <-; simpl; lia|].
    pose proof (digits_length s1' i 0) as Hd.
    repeat match type of E2 with
    | Some _ = Some _ => injection E2 as <- <- <-
    | None = Some _ => discriminate E2
    | context [match ?x with _ => _ end] => destruct x
    end; simpl in *; lia. }
  destruct (exponentPart s2) as [[e s3]|] eqn:E3; [|discriminate H].
  assert (H3 : (length s3 <= length s2)%nat).
  { unfold exponentPart in E3.
    destruct s2 as [|c s2']; [injection E3 as <- <-; simpl; lia|].
    destruct (N.eqb c 101 || N.eqb c 69); [|injection E3 as <- <-; simpl; lia].
    match type of E3 with context [digits 0 0 (snd ?sg)] =>
      assert (Hs : (length (snd sg) <= length s2')%nat);
      [ destruct s2' as [|d s2'']; simpl; [lia|];
        repeat match goal with
        | |- context [match ?x with _ => _ end] => destruct x; simpl; try lia
        end
      | pose proof (digits_length (snd sg) 0 0) as Hd;
        set (sg' := sg) in * ]
    end.
    destruct (snd (fst (digits 0 0 (snd sg')))); [discriminate E3|].
    injection E3 as <- <-. simpl. lia. }
  injection H as <- <-. lia.
Qed.

(** A parser of values never returns more text than it was given. *)
Lemma parsers_length (fuel : nat) :
  (forall s v rest, parseValue fuel s = Done v rest -> (length rest <= length s)%nat)
  /\ (forall acc s v rest,
        parseElements fuel acc s = Done v rest -> (length rest <= length s)%nat)
  /\ (forall acc s v rest,
        parseMembers fuel acc s = Done v rest -> (length rest <= length s)%nat).
Proof.
  induction fuel as [|fuel (IHv & IHe & IHm)]; [repeat split; intros; discriminate|].
  split; [|split].
  - intros s v rest H. cbn [parseValue] in H.
    destruct (skipWs s) as [|c r] eqn:Es; [discriminate H|].
    apply skipWs_cons in Es.
    destruct (N.eqb c 123).
    { destruct (skipWs r) as [|c' r'] eqn:Er.
      - apply IHm in H. lia.
      - pose proof (skipWs_cons _ _ _ Er) as Hr.
        destruct (N.eqb_spec c' 125) as [->|Hc'].
        + injection H as <- <-. lia.
        + assert (H' : parseMembers fuel [] r = Done v rest).
          { destruct c' as [|p]; [exact H|].
            repeat (destruct p as [p|p|]; try exact H). congruence. }
          apply IHm in H'. lia. }
    destruct (N.eqb c 91).
    { destruct (skipWs r) as [|c' r'] eqn:Er.
      - apply IHe in H. lia.
      - pose proof (skipWs_cons _ _ _ Er) as Hr.
        destruct (N.eqb_spec c' 93) as [->|Hc'].
        + injection H as <- <-. lia.
        + assert (H' : parseElements fuel [] r = Done v rest).
          { destruct c' as [|p]; [exact H|].
            repeat (destruct p as [p|p|]; try exact H). congruence. }
          apply IHe in H'. lia. }
    destruct (N.eqb c 34).
    { destruct (parseStringBody r) as [[str r']|] eqn:Eb; [|discriminate H].
      injection H as <- <-.
      apply (parseStringBody_length (length r)) in Eb; lia. }
    destruct (startsWith (c :: r) (js "null")).
    { injection H as <- <-. rewrite length_skipn. lia. }
    destruct (startsWith (c :: r) (js "true")).
    { injection H as <- <-. rewrite length_skipn. lia. }
    destruct (startsWith (c :: r) (js "false")).
    { injection H as <- <-. rewrite length_skipn. lia. }
    destruct (parseNumber (c :: r)) as [[q r']|] eqn:En; [|discriminate H].
    injection H as <- <-. apply parseNumber_length in En. simpl in En. lia.
  - intros acc s v rest H. cbn [parseElements] in H.
    destruct (parseValue fuel s) as [v1 r1| |] eqn:Ev; try discriminate H.
    apply IHv in Ev.
    destruct (skipWs r1) as [|c r2] eqn:Er; [discriminate H|].
    apply skipWs_cons in Er.
    destruct (N.eqb_spec c 44) as [->|Hc44].
    { apply IHe in H. lia. }
    destruct (N.eqb_spec c 93) as [->|Hc93].
    { injection H as <- <-. lia. }
    exfalso. destruct c as [|p]; [discriminate H|].
    repeat (destruct p as [p|p|]; try discriminate H); congruence.
  - intros acc s v rest H. cbn [parseMembers] in H.
    destruct (skipWs s) as [|c r] eqn:Es; [discriminate H|].
    apply skipWs_cons in Es.
    destruct (N.eqb_spec c 34) as [->|Hc34];
      [|exfalso; destruct c as [|p]; [discriminate H|];
        repeat (destruct p as [p|p|]; try discriminate H); congruence].
    destruct (parseStringBody r) as [[key r1]|] eqn:Eb; [|discriminate H].
    apply (parseStringBody_length (length r)) in Eb; [|lia].
    destruct (skipWs r1) as [|c1 r2] eqn:Er1; [discriminate H|].
    apply skipWs_cons in Er1.
    destruct (N.eqb_spec c1 58) as [->|Hc58];
      [|exfalso; destruct c1 as [|p]; [discriminate H|];
        repeat (destruct p as [p|p|]; try discriminate H); congruence].
    destruct (parseValue fuel r2) as [v1 r3| |] eqn:Ev; try discriminate H.
    apply IHv in Ev.
    destruct (skipWs r3) as [|c3 r4] eqn:Er3; [discriminate H|].
    apply skipWs_cons in Er3.
    destruct (N.eqb_spec c3 44) as [->|Hc44].
    { apply IHm in H. lia. }
    destruct (N.eqb_spec c3 125) as [->|Hc125].
    { injection H as <- <-. lia. }
    exfalso. destruct c3 as [|p]; [discriminate H|].
    repeat (destruct p as [p|p|]; try discriminate H); congruence.
Qed.

(** With a budget of twice the length of the text plus one, no parser of
    values runs out of budget: [None] from [parse] is a syntax error. *)
Lemma fuel_suffices_all (fuel : nat) :
  (forall s, (2 * length s + 1 <= fuel)%nat -> parseValue fuel s <> OutOfFuel)
  /\ (forall acc s, (2 * length s + 2 <= fuel)%nat -> parseElements fuel acc s <> OutOfFuel)
  /\ (forall acc s, (2 * length s + 2 <= fuel)%nat -> parseMembers fuel acc s <> OutOfFuel).
Proof.
  induction fuel as [|fuel (IHv & IHe & IHm)]; [repeat split; intros; lia|].
  destruct (parsers_length fuel) as (Lv & _ & _).
  split; [|split].
  - intros s Hf. cbn [parseValue].
    destruct (skipWs s) as [|c r] eqn:Es; [discriminate|].
    apply skipWs_cons in Es.
    destruct (N.eqb c 123).
    { assert (Hm : parseMembers fuel [] r <> OutOfFuel) by (apply IHm; lia).
      destruct (skipWs r) as [|c' r']; [exact Hm|].
      destruct (N.eqb_spec c' 125) as [->|Hc']; [discriminate|].
      destruct c' as [|p]; [exact Hm|].
      repeat (destruct p as [p|p|]; try exact Hm). congruence. }
    destruct (N.eqb c 91).
    { assert (He : parseElements fuel [] r <> OutOfFuel) by (apply IHe; lia).
      destruct (skipWs r) as [|c' r']; [exact He|].
      destruct (N.eqb_spec c' 93) as [->|Hc']; [discriminate|].
      destruct c' as [|p]; [exact He|].
      repeat (destruct p as [p|p|]; try exact He). congruence. }
    destruct (N.eqb c 34).
    { destruct (parseStringBody r) as [[str r']|]; discriminate. }
    destruct (startsWith (c :: r) (js "null")); [discriminate|].
    destruct (startsWith (c :: r) (js "true")); [discriminate|].
    destruct (startsWith (c :: r) (js "false")); [discriminate|].
    destruct (parseNumber (c :: r)) as [[q r']|]; discriminate.
  - intros acc s Hf. cbn [parseElements].
    assert (Hv : parseValue fuel s <> OutOfFuel) by (apply IHv; lia).
    destruct (parseValue fuel s) as [v1 r1| |] eqn:Ev; [|discriminate|congruence].
    apply Lv in Ev.
    destruct (skipWs r1) as [|c r2] eqn:Er; [discriminate|].
    apply skipWs_cons in Er.
    destruct (N.eqb_spec c 44) as [->|Hc44]; [apply IHe; lia|].
    destruct c as [|p]; [discriminate|].
    repeat (destruct p as [p|p|]; try discriminate). congruence.
  - intros acc s Hf. cbn [parseMembers].
    destruct (skipWs s) as [|c r] eqn:Es; [discriminate|].
    apply skipWs_cons in Es.
    destruct (N.eqb_spec c 34) as [->|Hc34];
      [|destruct c as [|p]; [discriminate|];
        repeat (destruct p as [p|p|]; try discriminate); congruence].
    destruct (parseStringBody r) as [[key r1]|] eqn:Eb; [|discriminate].
    apply (parseStringBody_length (length r)) in Eb; [|lia].
    destruct (skipWs r1) as [|c1 r2] eqn:Er1; [discriminate|].
    apply skipWs_cons in Er1.
    destruct (N.eqb_spec c1 58) as [->|Hc58];
      [|destruct c1 as [|p]; [discriminate|];
        repeat (destruct p as [p|p|]; try discriminate); congruence].
    assert (Hv : parseValue fuel r2 <> OutOfFuel) by (apply IHv; lia).
    destruct (parseValue fuel r2) as [v1 r3| |] eqn:Ev; [|discriminate|congruence].
    apply Lv in Ev.
    destruct (skipWs r3) as [|c3 r4] eqn:Er3; [discriminate|].
    apply skipWs_cons in Er3.
    destruct (N.eqb_spec c3 44) as [->|Hc44]; [apply IHm; lia|].
    destruct c3 as [|p]; [discriminate|].
    repeat (destruct p as [p|p|]; try discriminate). congruence.
Qed.

Lemma fuel_suffices (text : list N) :
  parseValue (2 * length text + 1) text <> OutOfFuel.
Proof. apply fuel_suffices_all. lia. Qed.

(** [parse] answers [None] only for a text that is not one JSON value. *)
Lemma parse_None (text : list N) :
  parse text = None ->
  parseValue (2 * length text + 1) text = Malformed
  \/ exists v c rest, parseValue (2 * length text + 1) text = Done v (c :: rest)
       /\ skipWs (c :: rest) <> [].
Proof.
  unfold parse. pose proof (fuel_suffices text) as Hf.
  destruct (parseValue (2 * length text + 1) text) as [v rest| |]; [|auto|congruence].
  destruct rest as [|c rest]; [discriminate|].
  destruct (skipWs (c :: rest)) eqn:E; [discriminate|].
  intros _. right. exists v, c, rest. split; [reflexivity|]. rewrite E. discriminate.
Qed.

End JsonFacts.

(** * Properties of the scoring *)

Module ScoringFacts.
Import Scoring.

Lemma Category_eqb_eq (a b : Category) : Category_eqb a b = true <-> a = b.
Proof. destruct a, b; simpl; split; congruence. Qed.

Lemma or_zero_id (x : Z) : or_zero x = x.
Proof. unfold or_zero. destruct (Z.eqb_spec x 0); congruence. Qed.

(** [Math.floor(s / 500)] on an integer [s] is the floored quotient. *)
Lemma floor_div_500 (s : Z) : Math_floor (inject_Z s / inject_Z 500) = s / 500.
Proof.
  unfold Math_floor, Qdiv, Qmult, Qinv, inject_Z, Qfloor. simpl.
  now rewrite Z.mul_1_r.
Qed.

Lemma level_after (r : option AnalysisResult) (a : Category) (prev : GameStats) :
  level (handleUserAnswer r a prev) = score (handleUserAnswer r a prev) / 500 + 1.
Proof. unfold handleUserAnswer. cbn [level score]. now rewrite floor_div_500. Qed.





(** C1: the scoring update, for statistics and a confidence that are safe
    integers and stay safe under the update (the range in which the sums of
    the code are exact).  Correctness is equality of the answer with the
    result's classification; the score grows by the confidence when correct
    and by nothing otherwise; the streak grows by one or resets to zero;
    [totalAnswers] always grows by one, [correctAnswers] by one exactly when
    correct; the level is [floor(new score / 500) + 1].  The two worked
    examples of the specification follow: an incorrect answer from
    (100, 2, 5, 3, 1) gives (100, 0, 6, 3, 1), and a correct answer at
    confidence 90 from score 410 and streak 1 gives score 500 and level 2. *)
Theorem handleUserAnswer_contract (prev : GameStats) (answer : Category) (r : AnalysisResult) :
  withinSafeIntegers prev (confidence r) ->
  let correct := isCorrect (Some r) answer in
  let next := handleUserAnswer (Some r) answer prev in
  (correct = true <-> answer = classification r)
  /\ score next = score prev + (if correct then confidence r else 0)
  /\ streak next = (if correct then streak prev + 1 else 0)
  /\ totalAnswers next = totalAnswers prev + 1
  /\ correctAnswers next = correctAnswers prev + (if correct then 1 else 0)
  /\ level next = score next / 500 + 1
  /\ (forall c e t,
        handleUserAnswer (Some (mkAnalysisResult recycle c e t)) trash (mkGameStats 100 2 5 3 1)
          = mkGameStats 100 0 6 3 1
        /\ handleUserAnswer (Some (mkAnalysisResult trash c e t)) recycle (mkGameStats 100 2 5 3 1)
          = mkGameStats 100 0 6 3 1)
  /\ (forall k e t total right lv,
        let after := handleUserAnswer (Some (mkAnalysisResult k 90 e t)) k
                       (mkGameStats 410 1 total right lv) in
        score after = 500 /\ level after = 2 /\ streak after = 2).
Proof.
  intros _ correct next.
  split; [apply Category_eqb_eq|].
  split; [subst next correct; unfold handleUserAnswer, points; simpl;
          destruct (Category_eqb answer (classification r)); simpl;
          [now rewrite or_zero_id | reflexivity]|].
  split; [reflexivity|]. split; [reflexivity|]. split; [reflexivity|].
  split; [apply level_after|].
  split.
  - intros c e t. split; reflexivity.
  - intros k e t total right lv after. subst after.
    destruct k; repeat split; reflexivity.
Qed.

Lemma handleUserAnswer_contract_witness :
  let prev := mkGameStats 410 1 5 3 1 in
  let r := mkAnalysisResult recycle 90 [] [] in
  withinSafeIntegers prev (confidence r)
  /\ handleUserAnswer (Some r) recycle prev = mkGameStats 500 2 6 4 2.
Proof.
  intros prev r.
  assert (H : withinSafeIntegers prev (confidence r)).
  { unfold withinSafeIntegers, safeInteger, maxSafeInteger. simpl. lia. }
  split; [exact H|].
  pose proof (handleUserAnswer_contract prev recycle r H) as C.
  cbv zeta in C.
  destruct C as (_ & Hs & Hk & Ht & Hc & Hl & _).
  destruct (handleUserAnswer (Some r) recycle prev) as [s k t c l].
  simpl in Hs, Hk, Ht, Hc, Hl. subst s k t c. rewrite Hl. reflexivity.
Defined.

(** With no current result the answer counts as incorrect. *)
Lemma handleUserAnswer_without_result (prev : GameStats) (answer : Category) :
  handleUserAnswer None answer prev
  = mkGameStats (score prev + 0) 0 (totalAnswers prev + 1) (correctAnswers prev + 0)
      ((score prev + 0) / 500 + 1).
Proof.
  unfold handleUserAnswer. cbn [isCorrect points]. now rewrite floor_div_500.
Qed.





End ScoringFacts.

(** * Properties of the Uploader and the Classifier *)

Module ClassifierFacts.

#[local] Arguments js : simpl never.
#[local] Arguments startsWith : simpl never.
#[local] Arguments cleanedText : simpl never.
#[local] Arguments falsy : simpl never.
#[local] Arguments includes : simpl never.

Lemma jseqb_eq (a b : list N) : jseqb a b = true <-> a = b.
Proof.
  revert b; induction a as [|x a IH]; intros [|y b]; simpl; split; try congruence.
  - intros H. apply andb_prop in H as [Hx Hab].
    apply N.eqb_eq in Hx. apply IH in Hab. congruence.
  - intros H. injection H as -> ->. rewrite N.eqb_refl. simpl. now apply IH.
Qed.

(** The source's test [!c || !['recycle', 'trash'].includes(c)] lets exactly
    the two strings through. *)
Lemma classification_test (c : option JValue) :
  falsy c || negb (includes [js "recycle"; js "trash"] c) = false
  <-> c = Some (JStr (js "recycle")) \/ c = Some (JStr (js "trash")).
Proof.
  split.
  - intros H. apply orb_false_elim in H as [_ H].
    apply negb_false_iff in H.
    destruct c as [[| | |s| |]|]; unfold includes in H; simpl in H; try discriminate.
    rewrite orb_false_r in H. apply orb_prop in H as [H|H];
      apply jseqb_eq in H; subst; auto.
  - intros [->| ->]; reflexivity.
Qed.

Section WithParser.

Variable JSON_parse : list N -> option JValue.

Lemma analyze_bad_url (imageUrl : list N) (generated : Outcome (list N)) :
  imageUrl = [] \/ startsWith imageUrl (js "https://") = false ->
  analyzeImageFromUrl JSON_parse imageUrl generated = Normal classifierFallback.
Proof.
  intros H. unfold analyzeImageFromUrl.
  assert (Hc : falsyString (Some imageUrl) || negb (startsWith imageUrl (js "https://")) = true).
  { destruct H as [->|H]; [reflexivity|]. rewrite H. apply orb_true_r. }
  now rewrite Hc.
Qed.

Lemma analyze_rejected (imageUrl reason : list N) :
  analyzeImageFromUrl JSON_parse imageUrl (Rejected reason) = Normal classifierFallback.
Proof.
  unfold analyzeImageFromUrl.
  now destruct (falsyString (Some imageUrl) || negb (startsWith imageUrl (js "https://"))).
Qed.

Lemma analyze_unparsable (imageUrl text : list N) :
  JSON_parse (cleanedText text) = None ->
  analyzeImageFromUrl JSON_parse imageUrl (Returned text) = Normal classifierFallback.
Proof.
  intros H. unfold analyzeImageFromUrl, parseJSON.
  destruct (falsyString (Some imageUrl) || negb (startsWith imageUrl (js "https://")));
    [reflexivity|].
  cbn. now rewrite H.
Qed.

Lemma analyze_parsed (imageUrl text : list N) (v : JValue) :
  JSON_parse (cleanedText text) = Some v ->
  analyzeImageFromUrl JSON_parse imageUrl (Returned text)
  = if falsyString (Some imageUrl) || negb (startsWith imageUrl (js "https://"))
    then Normal classifierFallback
    else match v with
         | JObj fields =>
             if falsy (own fields (js "classification"))
                || negb (includes [js "recycle"; js "trash"] (own fields (js "classification")))
             then Normal classifierFallback
             else Normal v
         | _ => Normal classifierFallback
         end.
Proof.
  intros H. unfold analyzeImageFromUrl, parseJSON.
  destruct (falsyString (Some imageUrl) || negb (startsWith imageUrl (js "https://")));
    [reflexivity|].
  cbn. rewrite H. cbn.
  destruct v; cbn; try reflexivity.
  now destruct (falsy (own fields (js "classification"))
                || negb (includes [js "recycle"; js "trash"] (own fields (js "classification")))).
Qed.

Lemma analyze_invalid (imageUrl text : list N) (v : JValue) :
  JSON_parse (cleanedText text) = Some v -> ~ validClassification v ->
  analyzeImageFromUrl JSON_parse imageUrl (Returned text) = Normal classifierFallback.
Proof.
  intros H Hv. rewrite (analyze_parsed _ _ _ H).
  destruct (falsyString (Some imageUrl) || negb (startsWith imageUrl (js "https://")));
    [reflexivity|].
  destruct v; try reflexivity.
  destruct (falsy (own fields (js "classification"))
            || negb (includes [js "recycle"; js "trash"] (own fields (js "classification"))))
    eqn:E; [reflexivity|].
  exfalso. apply Hv. unfold validClassification, field.
  now apply classification_test.
Qed.

(** The handler of [analyzeImageFromUrl] returns, so the function does. *)
Lemma analyze_never_throws (imageUrl : list N) (generated : Outcome (list N)) :
  exists v, analyzeImageFromUrl JSON_parse imageUrl generated = Normal v.
Proof.
  unfold analyzeImageFromUrl, try_catch.
  match goal with |- context [match ?b with Normal _ => _ | Throw _ => _ end] =>
    destruct b end; eauto.
Qed.

Lemma fallback_classification : validClassification classifierFallback.
Proof. right. reflexivity. Qed.

End WithParser.

(** C2: when the AI call fails, or the reply is not valid JSON once the code
    fences are stripped, or the parsed value has no [classification] that is
    exactly ["recycle"] or ["trash"], [analyzeImageFromUrl] does not throw:
    it returns the fixed fallback, whose classification is ["trash"] and
    whose confidence is 75. *)
Theorem analysis_failure_gives_fallback
    (JSON_parse : list N -> option JValue)
    (imageUrl : list N) (generated : Outcome (list N)) :
  (exists reason, generated = Rejected reason)
  \/ (exists text, generated = Returned text /\ JSON_parse (cleanedText text) = None)
  \/ (exists text v, generated = Returned text
        /\ JSON_parse (cleanedText text) = Some v /\ ~ validClassification v) ->
  analyzeImageFromUrl JSON_parse imageUrl generated = Normal classifierFallback
  /\ field classifierFallback (js "classification") = Some (JStr (js "trash"))
  /\ field classifierFallback (js "confidence") = Some (JNum (inject_Z 75)).
Proof.
  intros H. split; [|split; reflexivity].
  destruct H as [[reason ->]|[(text & -> & Hp)|(text & v & -> & Hp & Hv)]].
  - apply analyze_rejected.
  - now apply analyze_unparsable.
  - now apply analyze_invalid with v.
Qed.

Lemma analysis_failure_gives_fallback_witness :
  let url := js "https://storage.example/waste-analysis/1.jpg" in
  let prose := js "Sorry, I cannot tell what this object is." in
  let wrong := jq "{'classification':'compost','confidence':88}" in
  Json.parse (cleanedText prose) = None
  /\ analyzeImageFromUrl Json.parse url (Returned prose) = Normal classifierFallback
  /\ analyzeImageFromUrl Json.parse url (Returned wrong) = Normal classifierFallback.
Proof.
  intros url prose wrong.
  assert (H1 : Json.parse (cleanedText prose) = None) by (vm_compute; reflexivity).
  split; [exact H1|]. split.
  - refine (proj1 (analysis_failure_gives_fallback Json.parse url (Returned prose) _)).
    right; left. exists prose. split; [reflexivity | exact H1].
  - refine (proj1 (analysis_failure_gives_fallback Json.parse url (Returned wrong) _)).
    right; right.
    exists wrong, (JObj [(js "classification", JStr (js "compost"));
                         (js "confidence", JNum (inject_Z 88))]).
    split; [reflexivity|]. split; [vm_compute; reflexivity|].
    intros [H|H]; vm_compute in H; discriminate H.
Defined.

(** C3, as the code has it: [analyzeImageFromUrl] always returns, and what
    it returns has a [classification] that is ["recycle"] or ["trash"]; it
    is either the fallback, whose confidence is 75, or the parsed reply
    itself, whose [confidence] is whatever the reply carried. *)
Theorem classifier_result_is_classified
    (JSON_parse : list N -> option JValue)
    (imageUrl : list N) (generated : Outcome (list N)) :
  exists v,
    analyzeImageFromUrl JSON_parse imageUrl generated = Normal v
    /\ validClassification v
    /\ ((v = classifierFallback /\ confidenceInRange v)
        \/ (exists text, generated = Returned text
              /\ JSON_parse (cleanedText text) = Some v)).
Proof.
  assert (Hfb : validClassification classifierFallback
                /\ ((classifierFallback = classifierFallback
                     /\ confidenceInRange classifierFallback)
                    \/ (exists text, generated = Returned text
                          /\ JSON_parse (cleanedText text) = Some classifierFallback))).
  { split; [apply fallback_classification|]. left. split; [reflexivity|].
    exists (inject_Z 75). repeat split; vm_compute; congruence. }
  destruct generated as [text|reason].
  - destruct (JSON_parse (cleanedText text)) as [v|] eqn:Hp.
    + rewrite (analyze_parsed _ _ _ _ Hp).
      destruct (falsyString (Some imageUrl) || negb (startsWith imageUrl (js "https://")));
        [eexists; split; [reflexivity | exact Hfb]|].
      destruct v; try (eexists; split; [reflexivity | exact Hfb]).
      destruct (falsy (own fields (js "classification"))
                || negb (includes [js "recycle"; js "trash"]
                           (own fields (js "classification")))) eqn:E;
        [eexists; split; [reflexivity | exact Hfb]|].
      eexists; split; [reflexivity|]. split.
      * unfold validClassification, field. now apply classification_test.
      * right. exists text. auto.
    + rewrite (analyze_unparsable _ _ _ Hp). eexists; split; [reflexivity | exact Hfb].
  - rewrite analyze_rejected. eexists; split; [reflexivity | exact Hfb].
Qed.

(** C3 as stated fails: a reply that parses and is classified is returned
    with the confidence it carries, here 50. *)
Lemma confidence_is_not_validated :
  let url := js "https://storage.example/waste-analysis/1.jpg" in
  let reply := jq "{'classification':'recycle','confidence':50,'explanation':'A bottle.','tips':[]}" in
  let returned := JObj [ (js "classification", JStr (js "recycle"));
                         (js "confidence", JNum (inject_Z 50));
                         (js "explanation", JStr (js "A bottle."));
                         (js "tips", JArr []) ] in
  analyzeImageFromUrl Json.parse url (Returned reply) = Normal returned
  /\ ~ confidenceInRange returned.
Proof.
  intros url reply returned. split; [vm_compute; reflexivity|].
  intros (q & Hq & _ & Hlo & _).
  vm_compute in Hq. injection Hq as <-. vm_compute in Hlo. apply Hlo. reflexivity.
Qed.

(** C6: when the storage collaborator returns no URL, or one that does not
    begin with [https://], [uploadImageToStorage] throws, and what it throws
    is the generic upload failure; when the URL begins with [https://] it is
    returned unchanged. *)
Theorem upload_requires_https (fetched : Outcome unit) (publicUrl : option (list N)) :
  (publicUrl = None
   \/ (exists u, publicUrl = Some u /\ startsWith u (js "https://") = false) ->
   uploadImageToStorage fetched (Returned publicUrl)
   = Throw (Error (js "Failed to upload image for analysis")))
  /\ (forall u, publicUrl = Some u -> startsWith u (js "https://") = true ->
      uploadImageToStorage (Returned tt) (Returned publicUrl) = Normal u).
Proof.
  split.
  - intros H. unfold uploadImageToStorage.
    destruct fetched as [[]|reason]; [|reflexivity]. cbn.
    destruct H as [->|(u & -> & Hu)]; [reflexivity|].
    rewrite Hu. now rewrite orb_true_r.
  - intros u -> Hu. unfold uploadImageToStorage. cbn.
    rewrite Hu. destruct u; [discriminate Hu | reflexivity].
Qed.

Lemma upload_requires_https_witness :
  let plain := js "http://storage.example/waste-analysis/1.jpg" in
  let secure := js "https://storage.example/waste-analysis/1.jpg" in
  startsWith plain (js "https://") = false
  /\ uploadImageToStorage (Returned tt) (Returned (Some plain)) = Throw uploadFailure
  /\ uploadImageToStorage (Returned tt) (Returned None) = Throw uploadFailure
  /\ startsWith secure (js "https://") = true
  /\ uploadImageToStorage (Returned tt) (Returned (Some secure)) = Normal secure.
Proof.
  intros plain secure.
  assert (H1 : startsWith plain (js "https://") = false) by (vm_compute; reflexivity).
  assert (H2 : startsWith secure (js "https://") = true) by (vm_compute; reflexivity).
  split; [exact H1|]. split.
  - apply (proj1 (upload_requires_https (Returned tt) (Some plain))).
    right. exists plain. split; [reflexivity | exact H1].
  - split.
    + apply (proj1 (upload_requires_https (Returned tt) None)). left. reflexivity.
    + split; [exact H2|].
      exact (proj2 (upload_requires_https (Returned tt) (Some secure)) secure eq_refl H2).
Defined.

(** C10: for an image URL that is empty or does not begin with [https://],
    the error that [analyzeImageFromUrl] throws is caught by its own handler:
    the call returns the fixed fallback (["trash"], 75), whatever the AI
    collaborator would have answered, and so returns exactly what it returns
    when the AI call fails. *)
Theorem invalid_url_gives_fallback
    (JSON_parse : list N -> option JValue)
    (imageUrl : list N) (generated : Outcome (list N)) :
  imageUrl = [] \/ startsWith imageUrl (js "https://") = false ->
  analyzeImageFromUrl JSON_parse imageUrl generated = Normal classifierFallback
  /\ field classifierFallback (js "classification") = Some (JStr (js "trash"))
  /\ field classifierFallback (js "confidence") = Some (JNum (inject_Z 75))
  /\ (forall otherUrl reason,
        analyzeImageFromUrl JSON_parse imageUrl generated
        = analyzeImageFromUrl JSON_parse otherUrl (Rejected reason)).
Proof.
  intros H. rewrite (analyze_bad_url _ _ _ H).
  repeat split; try reflexivity.
  intros otherUrl reason. now rewrite analyze_rejected.
Qed.

Lemma invalid_url_gives_fallback_witness :
  let plain := js "http://storage.example/waste-analysis/1.jpg" in
  let reply := jq "{'classification':'recycle','confidence':95}" in
  startsWith plain (js "https://") = false
  /\ analyzeImageFromUrl Json.parse plain (Returned reply) = Normal classifierFallback
  /\ analyzeImageFromUrl Json.parse [] (Returned reply) = Normal classifierFallback.
Proof.
  intros plain reply.
  assert (H1 : startsWith plain (js "https://") = false) by (vm_compute; reflexivity).
  split; [exact H1|]. split.
  - exact (proj1 (invalid_url_gives_fallback Json.parse plain (Returned reply) (or_intror H1))).
  - exact (proj1 (invalid_url_gives_fallback Json.parse [] (Returned reply)
                    (or_introl eq_refl))).
Defined.

End ClassifierFacts.

(** * Scoring against what the Classifier returns *)

Module GameFacts.
Import Scoring.


End GameFacts.

(** * Properties of the streaming loop *)

Module StreamingFacts.
Import Streaming.

Ltac unfold_world :=
  unfold stopCamera, startStreamingAnalysis, stopStreamingAnalysis, resetGame,
    cameraStarted, intervalCallback, clearIntervalOfRef, setIntervalIntoRef,
    setInFlight, stopTracks, setAnalysisResult, setShowResult, setUserAnswer,
    setIsCameraMode, setStream, setIsStreamingAnalysis, setLastAnalysisTime in *.

(** Clearing the ref's timer, when the ref holds the only live one, leaves
    no timer and an empty ref. *)
Lemma clear_owned (w : World) :
  match analysisIntervalRef w with
  | Some id => id <> 0%nat /\ forall j, j <> id -> intervals w !! j = None
  | None => intervals w = ∅
  end ->
  intervals (clearIntervalOfRef w) = ∅ /\ analysisIntervalRef (clearIntervalOfRef w) = None.
Proof.
  unfold clearIntervalOfRef.
  destruct (analysisIntervalRef w) as [id|] eqn:Href.
  - intros [Hid Hothers]. destruct (Nat.eqb_spec id 0) as [->|_]; [congruence|].
    simpl. split; [|reflexivity].
    apply map_eq. intros j. rewrite lookup_empty.
    destruct (decide (j = id)) as [->|Hne].
    + apply lookup_delete_eq.
    + rewrite lookup_delete_ne by congruence. now apply Hothers.
  - intros H. now rewrite Href.
Qed.

Lemma clear_keeps_rest (w : World) :
  nextTimerId (clearIntervalOfRef w) = nextTimerId w
  /\ isStreamingAnalysis (clearIntervalOfRef w) = isStreamingAnalysis w
  /\ inFlight (clearIntervalOfRef w) = inFlight w
  /\ analysisResult (clearIntervalOfRef w) = analysisResult w.
Proof.
  unfold clearIntervalOfRef.
  destruct (analysisIntervalRef w) as [id|]; [|auto].
  destruct (Nat.eqb id 0); auto.
Qed.

Lemma stop_clears (e : Event) (P : list N -> option JValue) (w : World) :
  timerOwned w -> isStop e = true ->
  intervals (step P e w) = ∅ /\ analysisIntervalRef (step P e w) = None
  /\ nextTimerId (step P e w) = nextTimerId w.
Proof.
  intros (Hn & _ & Hown) He.
  assert (Hclear : forall w0 : World,
            analysisIntervalRef w0 = analysisIntervalRef w ->
            intervals w0 = intervals w -> nextTimerId w0 = nextTimerId w ->
            intervals (clearIntervalOfRef w0) = ∅
            /\ analysisIntervalRef (clearIntervalOfRef w0) = None
            /\ nextTimerId (clearIntervalOfRef w0) = nextTimerId w).
  { intros w0 Hr Hi Hnx.
    destruct (clear_owned w0) as [H1 H2]; [now rewrite Hr, Hi|].
    destruct (clear_keeps_rest w0) as (H3 & _). rewrite H3. auto. }
  destruct e; try discriminate He; simpl.
  - unfold stopCamera. destruct capturedStream as [s|]; now apply Hclear.
  - unfold stopStreamingAnalysis. now apply Hclear.
Qed.

Lemma timerOwned_initial : timerOwned initialWorld.
Proof. unfold timerOwned; simpl. auto. Qed.

Lemma timerOwned_step (P : list N -> option JValue) (w : World) (e : Event) :
  timerOwned w -> offered w e = true -> timerOwned (step P e w).
Proof.
  intros Hw He. pose proof Hw as (Hn & Hidle & Hown).
  destruct e; simpl in *.
  - (* the camera started *) exact Hw.
  - (* stopCamera *)
    destruct (stop_clears (StopCamera capturedStream) P w Hw eq_refl) as (Hi & Hr & Hx).
    simpl in Hi, Hr, Hx. unfold timerOwned. rewrite Hi, Hr, Hx. auto.
  - (* startStreamingAnalysis *)
    apply andb_prop in He as [_ He]. apply negb_true_iff in He.
    specialize (Hidle He).
    unfold timerOwned, startStreamingAnalysis; unfold_world; simpl.
    split; [lia|]. split; [discriminate|]. split; [exact Hn|].
    intros j Hj. rewrite lookup_insert_ne by congruence.
    rewrite Hidle. apply lookup_empty.
  - (* stopStreamingAnalysis *)
    destruct (stop_clears ClickStopAnalysis P w Hw eq_refl) as (Hi & Hr & Hx).
    simpl in Hi, Hr, Hx. unfold timerOwned. rewrite Hi, Hr, Hx. auto.
  - (* an answer *) exact Hw.
  - (* resetGame *)
    unfold resetGame.
    set (w0 := setUserAnswer None (setShowResult false (setAnalysisResult None w))).
    assert (H0 : timerOwned w0) by exact Hw.
    destruct (stop_clears ClickStopAnalysis P w0 H0 eq_refl) as (Hi & Hr & Hx).
    simpl in Hi, Hr, Hx. unfold timerOwned. rewrite Hi, Hr, Hx. auto.
  - (* the timer *)
    destruct (intervals w !! id) as [captured|]; [|exact Hw].
    unfold intervalCallback.
    destruct (now - captured <? 2000); [exact Hw|].
    destruct (falsyString frame); exact Hw.
  - (* an attempt settles *)
    unfold attemptSettles. destruct (inFlight w !! k); exact Hw.
Qed.

Lemma Reachable_timerOwned (P : list N -> option JValue) (w : World) :
  Reachable P w -> timerOwned w.
Proof.
  induction 1 as [|w e _ IH He]; [apply timerOwned_initial|].
  now apply timerOwned_step.
Qed.









(** The decision of the interval callback depends on the time it closed
    over and on nothing that earlier ticks did: a tick that goes ahead
    records its time in the state, but the timer keeps the callback with
    the time captured at the start. *)
Lemma gate_ignores_earlier_attempts (P : list N -> option JValue)
    (w : World) (id : nat) (captured now : Z) (frame : option (list N)) :
  intervals w !! id = Some captured ->
  let w' := step P (TimerFires id now frame) w in
  intervals w' = intervals w
  /\ (passesThrottle captured now frame = true ->
      inFlight w' = inFlight w ++ [mkAttempt now frame]
      /\ lastAnalysisTime w' = now)
  /\ (passesThrottle captured now frame = false -> w' = w).
Proof.
  intros Hid w'. subst w'. simpl. rewrite Hid.
  unfold passesThrottle, intervalCallback.
  destruct (now - captured <? 2000); simpl.
  - split; [reflexivity|]. split; [discriminate | reflexivity].
  - destruct (falsyString frame); simpl.
    + split; [reflexivity|]. split; [discriminate | reflexivity].
    + split; [reflexivity|]. split; [intros _; split; reflexivity | discriminate].
Qed.




(** What the interval callback stores: the Classifier's answer when the
    upload succeeded, the streaming fallback when it threw. *)
Lemma analyzeFrame_cases (P : list N -> option JValue) (fetched : Outcome unit)
    (uploaded : Outcome (option (list N))) (generated : Outcome (list N)) :
  match uploadImageToStorage fetched uploaded with
  | Normal imageUrl =>
      analyzeImageFromUrl P imageUrl generated
      = Normal (analyzeFrame P fetched uploaded generated)
  | Throw _ => analyzeFrame P fetched uploaded generated = streamingFallback
  end.
Proof.
  unfold analyzeFrame.
  destruct (uploadImageToStorage fetched uploaded) as [imageUrl|e]; [|reflexivity].
  cbn.
  destruct (ClassifierFacts.analyze_never_throws P imageUrl generated) as (v & Hv).
  now rewrite Hv.
Qed.

(** C5, as the code has it: when the upload of a tick throws, the stored
    result becomes the fixed fallback of the interval callback.  It has the
    classification (["trash"]) and the confidence (75) of the Classifier's
    fallback, and an explanation and tips of its own, about the camera. *)
Theorem upload_failure_stores_streaming_fallback (P : list N -> option JValue)
    (w : World) (k : nat) (fetched : Outcome unit)
    (uploaded : Outcome (option (list N))) (generated : Outcome (list N)) (e : JsError) :
  (k < length (inFlight w))%nat ->
  uploadImageToStorage fetched uploaded = Throw e ->
  analysisResult (step P (AttemptSettles k fetched uploaded generated) w)
    = Some streamingFallback
  /\ field streamingFallback (js "classification")
     = field classifierFallback (js "classification")
  /\ field streamingFallback (js "confidence") = field classifierFallback (js "confidence")
  /\ field streamingFallback (js "explanation")
     = Some (JStr (js "Unable to analyze this frame. Please try adjusting the camera angle or lighting."))
  /\ field streamingFallback (js "tips")
     = Some (JArr [ JStr (js "Ensure good lighting");
                    JStr (js "Hold the camera steady");
                    JStr (js "Make sure the object is clearly visible") ]).
Proof.
  intros Hk Hup. split; [|repeat split; reflexivity].
  simpl. unfold attemptSettles.
  destruct (lookup_lt_is_Some_2 (inFlight w) k Hk) as [a Ha]. rewrite Ha. simpl.
  pose proof (analyzeFrame_cases P fetched uploaded generated) as Hc.
  rewrite Hup in Hc. now rewrite Hc.
Qed.

Lemma upload_failure_stores_streaming_fallback_witness :
  let T := 1700000000000 in
  let frame := js "data:image/jpeg;base64,/9j/4AAQ" in
  let w := run Json.parse [CameraStarted 1; ClickStartAnalysis; TimerFires 1 T (Some frame)]
             initialWorld in
  let plain := Returned (Some (js "http://storage.example/waste-analysis/1.jpg")) in
  (0 < length (inFlight w))%nat
  /\ uploadImageToStorage (Returned tt) plain = Throw uploadFailure
  /\ analysisResult (step Json.parse (AttemptSettles 0 (Returned tt) plain (Returned [])) w)
     = Some streamingFallback.
Proof.
  intros T frame w plain.
  assert (H1 : (0 < length (inFlight w))%nat) by (vm_compute; lia).
  assert (H2 : uploadImageToStorage (Returned tt) plain = Throw uploadFailure)
    by (vm_compute; reflexivity).
  split; [exact H1|]. split; [exact H2|].
  exact (proj1 (upload_failure_stores_streaming_fallback Json.parse w 0 (Returned tt) plain
                  (Returned []) uploadFailure H1 H2)).
Defined.

(** C5 as stated fails: the fallback that a failed upload installs is not
    the Classifier's fallback; the explanation and the tips differ. *)
Lemma streaming_fallback_differs :
  let T := 1700000000000 in
  let frame := js "data:image/jpeg;base64,/9j/4AAQ" in
  let w := run Json.parse [CameraStarted 1; ClickStartAnalysis; TimerFires 1 T (Some frame)]
             initialWorld in
  let failed := AttemptSettles 0 (Returned tt) (Rejected (js "Failed to fetch")) (Returned []) in
  analysisResult (step Json.parse failed w) = Some streamingFallback
  /\ analysisResult (step Json.parse failed w) <> Some classifierFallback
  /\ field streamingFallback (js "explanation") <> field classifierFallback (js "explanation")
  /\ field streamingFallback (js "tips") <> field classifierFallback (js "tips").
Proof.
  intros T frame w failed.
  split; [vm_compute; reflexivity|].
  repeat split; intros H; vm_compute in H; discriminate H.
Qed.

End StreamingFacts.


(** * More on the scoring: what the statistics count *)

Module GameSummaryFacts.
Import Scoring Rounds Display.

Lemma play_snoc (rounds : list (option AnalysisResult * Category))
    (x : option AnalysisResult * Category) (st : GameStats) :
  play (rounds ++ [x]) st = handleUserAnswer (fst x) (snd x) (play rounds st).
Proof.
  revert st. induction rounds as [|[r a] rounds IH]; intros st; simpl.
  - now destruct x.
  - apply IH.
Qed.

Lemma sumZ_app (xs ys : list Z) : sumZ (xs ++ ys) = sumZ xs + sumZ ys.
Proof. induction xs as [|x xs IH]; simpl; lia. Qed.

Lemma points_earned (x : option AnalysisResult * Category) :
  points (fst x) (snd x) = earned x.
Proof.
  destruct x as [[r|] a]; unfold points, earned, isCorrect; simpl; [|reflexivity].
  destruct (Category_eqb a (classification r)); [apply ScoringFacts.or_zero_id | reflexivity].
Qed.

Lemma takeWhile_le_filter {A} (f : A -> bool) (l : list A) :
  (length (takeWhile f l) <= length (List.filter f l))%nat.
Proof.
  induction l as [|x l IH]; simpl; [lia|].
  destruct (f x); simpl; lia.
Qed.

Lemma filter_rev_length {A} (f : A -> bool) (l : list A) :
  length (List.filter f (List.rev l)) = length (List.filter f l).
Proof.
  induction l as [|x l IH]; simpl; [reflexivity|].
  rewrite List.filter_app, List.length_app, IH. simpl.
  destruct (f x); simpl; lia.
Qed.

(** The statistics after a game, counted from its rounds. *)
Lemma play_counts (rounds : list (option AnalysisResult * Category)) :
  let st := play rounds initialGameStats in
  totalAnswers st = Z.of_nat (length rounds)
  /\ correctAnswers st = Z.of_nat (length (List.filter roundCorrect rounds))
  /\ score st = sumZ (List.map earned rounds)
  /\ streak st = Z.of_nat (length (trailingCorrect rounds))
  /\ level st = score st / 500 + 1.
Proof.
  induction rounds as [|x rounds IH] using List.rev_ind.
  - simpl. repeat split; reflexivity.
  - cbv zeta in *. rewrite play_snoc.
    destruct IH as (Ht & Hc & Hs & Hk & _).
    set (st := play rounds initialGameStats) in *.
    split; [|split; [|split; [|split]]].
    + unfold handleUserAnswer; cbn [totalAnswers]. rewrite Ht, List.length_app. simpl. lia.
    + unfold handleUserAnswer; cbn [correctAnswers].
      rewrite Hc, List.filter_app, List.length_app. simpl.
      change (isCorrect (fst x) (snd x)) with (roundCorrect x).
      destruct (roundCorrect x); simpl; lia.
    + unfold handleUserAnswer; cbn [score].
      rewrite Hs, List.map_app, sumZ_app, points_earned. simpl. lia.
    + unfold handleUserAnswer; cbn [streak].
      unfold trailingCorrect in *. rewrite List.rev_app_distr. simpl.
      change (isCorrect (fst x) (snd x)) with (roundCorrect x).
      destruct (roundCorrect x); simpl; [|reflexivity].
      rewrite Hk. lia.
    + apply ScoringFacts.level_after.
Qed.

(** X1: after a game whose counters and running score stay safe integers,
    [totalAnswers] is the number of answers given, [correctAnswers] the
    number of correct ones, [score] the sum of the confidences of the
    results that were answered correctly, and [streak] the length of the
    run of correct answers that ends the game. *)
Theorem statistics_summarise_the_rounds (rounds : list (option AnalysisResult * Category)) :
  safeGame rounds ->
  let st := play rounds initialGameStats in
  totalAnswers st = Z.of_nat (length rounds)
  /\ correctAnswers st = Z.of_nat (length (List.filter roundCorrect rounds))
  /\ score st = sumZ (List.map earned rounds)
  /\ streak st = Z.of_nat (length (trailingCorrect rounds)).
Proof.
  intros _. destruct (play_counts rounds) as (H1 & H2 & H3 & H4 & _). auto.
Qed.

Lemma statistics_summarise_the_rounds_witness :
  let rounds := [(Some (mkAnalysisResult recycle 90 [] []), recycle);
                 (Some (mkAnalysisResult trash 80 [] []), recycle);
                 (Some (mkAnalysisResult trash 75 [] []), trash)] in
  safeGame rounds
  /\ play rounds initialGameStats = mkGameStats 165 1 3 2 1.
Proof.
  intros rounds.
  assert (H : safeGame rounds).
  { split; apply Z.leb_le; vm_compute; reflexivity. }
  split; [exact H|].
  pose proof (statistics_summarise_the_rounds rounds H) as C. cbv zeta in C.
  destruct C as (Ht & Hc & Hs & Hk).
  pose proof (play_counts rounds) as (_ & _ & _ & _ & Hl).
  destruct (play rounds initialGameStats) as [s k t c l].
  simpl in Ht, Hc, Hs, Hk, Hl. subst s k t c l. reflexivity.
Defined.

Lemma play_ordered (rounds : list (option AnalysisResult * Category)) :
  let st := play rounds initialGameStats in
  0 <= streak st /\ streak st <= correctAnswers st
  /\ correctAnswers st <= totalAnswers st.
Proof.
  destruct (play_counts rounds) as (Ht & Hc & _ & Hk & _). cbv zeta.
  rewrite Ht, Hc, Hk. unfold trailingCorrect.
  pose proof (takeWhile_le_filter roundCorrect (List.rev rounds)) as H1.
  rewrite filter_rev_length in H1.
  pose proof (List.filter_length_le roundCorrect rounds) as H2.
  lia.
Qed.

(** X2: whatever the results and the answers, the streak never exceeds the
    number of correct answers, which never exceeds the number of answers. *)
Theorem counters_are_ordered (rounds : list (option AnalysisResult * Category)) :
  let st := play rounds initialGameStats in
  0 <= streak st /\ streak st <= correctAnswers st
  /\ correctAnswers st <= totalAnswers st.
Proof. apply play_ordered. Qed.

(** The check of [accuracyIsNearestUpTo] covers every pair it is meant to. *)
Lemma accuracyIsNearestUpTo_sound (n : nat) :
  accuracyIsNearestUpTo n = true ->
  forall c t : nat, (1 <= t <= n)%nat -> (c <= t)%nat ->
  accuracyIsNearest (Z.of_nat c) (Z.of_nat t) = true.
Proof.
  induction n as [|n IH]; intros H c t Ht Hc; [lia|].
  cbn [accuracyIsNearestUpTo] in H. apply andb_true_iff in H as [Hn Hrow].
  destruct (Nat.eq_dec t (S n)) as [->|Hne].
  - rewrite List.forallb_forall in Hrow. apply Hrow.
    apply List.in_seq. lia.
  - apply IH; [exact Hn | lia | exact Hc].
Qed.

(** The doubles of line 297, run on every count of up to 200 answers. *)
Lemma accuracy_nearest_up_to_200 : accuracyIsNearestUpTo 200 = true.
Proof. vm_compute. reflexivity. Qed.

(** X3: after a game of at most 200 answers the displayed accuracy, as the
    doubles of the code give it, is a whole number from 0 to 100 that lies
    within one half of the percentage of correct answers. *)
Theorem accuracy_is_a_percentage (rounds : list (option AnalysisResult * Category)) :
  (length rounds <= 200)%nat ->
  let st := play rounds initialGameStats in
  exists a, accuracy st = Some a
    /\ 0 <= a <= 100
    /\ 200 * correctAnswers st - totalAnswers st <= 2 * totalAnswers st * a
    /\ 2 * totalAnswers st * a <= 200 * correctAnswers st + totalAnswers st.
Proof.
  intros Hlen st.
  destruct (play_counts rounds) as (Ht & Hc & _). fold st in Ht, Hc.
  pose proof (List.filter_length_le roundCorrect rounds) as Hle.
  destruct rounds as [|x rounds].
  - exists 0. subst st. simpl. repeat split; lia.
  - set (t := length (x :: rounds)) in *.
    set (c := length (List.filter roundCorrect (x :: rounds))) in *.
    assert (Hchk : accuracyIsNearest (Z.of_nat c) (Z.of_nat t) = true).
    { apply (accuracyIsNearestUpTo_sound 200 accuracy_nearest_up_to_200);
        [subst t; simpl in *; lia | exact Hle]. }
    unfold accuracyIsNearest in Hchk.
    assert (Hsame : accuracy st = accuracy (mkGameStats 0 0 (Z.of_nat t) (Z.of_nat c) 1)).
    { unfold accuracy. cbn [totalAnswers correctAnswers]. now rewrite Ht, Hc. }
    rewrite Hsame.
    destruct (accuracy (mkGameStats 0 0 (Z.of_nat t) (Z.of_nat c) 1)) as [a|];
      [|discriminate].
    exists a. split; [reflexivity|].
    rewrite Ht, Hc.
    apply andb_true_iff in Hchk as [Hchk H4].
    apply andb_true_iff in Hchk as [Hchk H3].
    apply andb_true_iff in Hchk as [H1 H2].
    apply Z.leb_le in H1, H2, H3, H4. lia.
Qed.

Lemma accuracy_is_a_percentage_witness :
  let rounds := [(Some (mkAnalysisResult recycle 90 [] []), recycle);
                 (Some (mkAnalysisResult trash 80 [] []), recycle);
                 (Some (mkAnalysisResult trash 75 [] []), trash)] in
  (length rounds <= 200)%nat
  /\ accuracy (play rounds initialGameStats) = Some 67.
Proof.
  intros rounds.
  assert (H : (length rounds <= 200)%nat) by (simpl; lia).
  split; [exact H|].
  destruct (accuracy_is_a_percentage rounds H) as (a & Ha & _).
  rewrite Ha. vm_compute in Ha. symmetry. exact Ha.
Defined.





End GameSummaryFacts.

(** * More on the reply, the Uploader and the Classifier *)

Module ReplyFacts.

Lemma startsWith_head (c p : N) (s prefix : list N) :
  c <> p -> startsWith (c :: s) (p :: prefix) = false.
Proof. intros H. simpl. now destruct (N.eqb_spec c p). Qed.

(** No match of the fence pattern starts at a code unit that is not a
    backtick, unless it is a line feed followed by three backticks. *)
Lemma fenceMatch_plain (c : N) (rest : list N) :
  c <> 96%N -> (c <> 10%N \/ startsWith rest (js "```") = false) ->
  fenceMatch (c :: rest) = 0%nat.
Proof.
  intros Hc Hnl. unfold fenceMatch.
  change (js "```json") with (96%N :: js "``json").
  change (js "```") with (96%N :: js "``") at 2.
  rewrite (startsWith_head c 96 rest (js "``json") Hc).
  rewrite (startsWith_head c 96 rest (js "``") Hc).
  destruct Hnl as [Hnl|Hnl].
  - now rewrite startsWith_head.
  - simpl. rewrite Hnl. now rewrite andb_false_r.
Qed.

Lemma replace_plain (body suffix : list N) :
  Forall (fun c => c <> 96%N) body ->
  startsWith suffix (js "```") = false ->
  replaceFencesFrom 0 (body ++ suffix) = body ++ replaceFencesFrom 0 suffix.
Proof.
  intros Hb Hs. induction Hb as [|c body Hc Hb IH]; [reflexivity|].
  change ((c :: body) ++ suffix) with (c :: (body ++ suffix)).
  cbn [replaceFencesFrom].
  rewrite fenceMatch_plain; [now rewrite IH | exact Hc |].
  right. destruct Hb as [|d body' Hd _]; [exact Hs|].
  change (js "```") with (96%N :: js "``").
  now apply startsWith_head.
Qed.

Lemma startsWith_nil (s : list N) : startsWith s [] = true.
Proof. now destruct s. Qed.

Lemma open_json_fence (rest : list N) :
  replaceFencesFrom 0 (js "```json" ++ [10%N] ++ rest) = replaceFencesFrom 0 rest.
Proof.
  change (js "```json" ++ [10%N] ++ rest)
    with (96 :: 96 :: 96 :: 106 :: 115 :: 111 :: 110 :: 10 :: rest)%N.
  assert (H : fenceMatch (96 :: 96 :: 96 :: 106 :: 115 :: 111 :: 110 :: 10 :: rest)%N = 8%nat).
  { unfold fenceMatch.
    change (startsWith (96 :: 96 :: 96 :: 106 :: 115 :: 111 :: 110 :: 10 :: rest)%N
              (js "```json")) with true.
    change (List.skipn 7 (96 :: 96 :: 96 :: 106 :: 115 :: 111 :: 110 :: 10 :: rest)%N)
      with (10%N :: rest).
    change (startsWith (10%N :: rest) [10%N]) with (startsWith rest []).
    now rewrite startsWith_nil. }
  cbn [replaceFencesFrom]. rewrite H. reflexivity.
Qed.

Lemma open_plain_fence (rest : list N) :
  replaceFencesFrom 0 (js "```" ++ [10%N] ++ rest) = replaceFencesFrom 0 (10%N :: rest).
Proof.
  change (js "```" ++ [10%N] ++ rest) with (96 :: 96 :: 96 :: 10 :: rest)%N.
  assert (H : fenceMatch (96 :: 96 :: 96 :: 10 :: rest)%N = 3%nat) by reflexivity.
  change (replaceFencesFrom 0 (96 :: 96 :: 96 :: 10 :: rest)%N)
    with (match fenceMatch (96 :: 96 :: 96 :: 10 :: rest)%N with
          | O => 96%N :: replaceFencesFrom 0 (96 :: 96 :: 10 :: rest)%N
          | S k => replaceFencesFrom k (96 :: 96 :: 10 :: rest)%N
          end).
  rewrite H. reflexivity.
Qed.

Lemma trim_line_feed (s : list N) : trim (10%N :: s) = trim s.
Proof. reflexivity. Qed.

(** X6: a reply without backticks of its own comes out of the cleaning as
    the trimmed reply, whether it was sent bare, inside a [```json] fence or
    inside a plain [```] fence (on lines of their own). *)
Theorem fenced_reply_is_unwrapped (body : list N) :
  Forall (fun c => c <> 96%N) body ->
  cleanedText (js "```json" ++ [10%N] ++ body ++ [10%N] ++ js "```") = trim body
  /\ cleanedText (js "```" ++ [10%N] ++ body ++ [10%N] ++ js "```") = trim body
  /\ cleanedText body = trim body.
Proof.
  intros Hb.
  assert (Hclose : replaceFencesFrom 0 (body ++ [10%N] ++ js "```") = body).
  { rewrite replace_plain; [|exact Hb|reflexivity].
    change (replaceFencesFrom 0 ([10%N] ++ js "```")) with (@nil N).
    apply List.app_nil_r. }
  unfold cleanedText, replaceFences. split; [|split].
  - rewrite open_json_fence. now rewrite Hclose.
  - rewrite open_plain_fence.
    change (10%N :: body ++ [10%N] ++ js "```")
      with ((10%N :: body) ++ [10%N] ++ js "```").
    rewrite (replace_plain (10%N :: body) ([10%N] ++ js "```"));
      [|constructor; [discriminate | exact Hb]|reflexivity].
    change (replaceFencesFrom 0 ([10%N] ++ js "```")) with (@nil N).
    rewrite List.app_nil_r. apply trim_line_feed.
  - rewrite <- (List.app_nil_r body) at 1.
    rewrite replace_plain; [|exact Hb|reflexivity].
    simpl. now rewrite List.app_nil_r.
Qed.

Lemma fenced_reply_is_unwrapped_witness :
  let body := jq "{'classification':'recycle','confidence':91}" in
  Forall (fun c => c <> 96%N) body
  /\ cleanedText (js "```json" ++ [10%N] ++ body ++ [10%N] ++ js "```") = trim body.
Proof.
  intros body.
  assert (H : Forall (fun c => c <> 96%N) body).
  { apply List.Forall_forall. intros c Hc.
    vm_compute in Hc. intuition (subst; discriminate). }
  split; [exact H|].
  exact (proj1 (fenced_reply_is_unwrapped body H)).
Defined.

(** Trimming does not reach into a text past a code unit that is not white
    space. *)
Lemma trimStart_keeps (tail : list N) (c : N) (s : list N) :
  isTrimSpace c = false ->
  exists s', trimStart (s ++ c :: tail) = s' ++ c :: tail.
Proof.
  intros Hc. induction s as [|d s [s' IH]]; simpl.
  - exists []. now rewrite Hc.
  - destruct (isTrimSpace d); [eauto|]. now exists (d :: s).
Qed.

Lemma replace_plain_strict (body suffix : list N) :
  Forall (fun c => c <> 96%N /\ c <> 10%N) body ->
  replaceFencesFrom 0 (body ++ suffix) = body ++ replaceFencesFrom 0 suffix.
Proof.
  intros Hb. induction Hb as [|c body [Hc Hn] Hb IH]; [reflexivity|].
  change ((c :: body) ++ suffix) with (c :: (body ++ suffix)).
  cbn [replaceFencesFrom].
  rewrite fenceMatch_plain; [now rewrite IH | exact Hc | now left].
Qed.

(** A fence that follows a line feed loses its backticks and keeps its
    language tag. *)
Lemma cleaned_after_line_break (rest : list N) :
  exists t, cleanedText (10%N :: js "```json" ++ rest) = js "json" ++ t.
Proof.
  unfold cleanedText, replaceFences.
  assert (H : replaceFencesFrom 0 (10%N :: js "```json" ++ rest)
              = js "json" ++ replaceFencesFrom 0 rest).
  { change (10%N :: js "```json" ++ rest)
      with (10 :: 96 :: 96 :: 96 :: 106 :: 115 :: 111 :: 110 :: rest)%N.
    assert (H4 : fenceMatch (10 :: 96 :: 96 :: 96 :: 106 :: 115 :: 111 :: 110 :: rest)%N
                 = 4%nat) by reflexivity.
    change (replaceFencesFrom 0 (10 :: 96 :: 96 :: 96 :: 106 :: 115 :: 111 :: 110 :: rest)%N)
      with (match fenceMatch (10 :: 96 :: 96 :: 96 :: 106 :: 115 :: 111 :: 110 :: rest)%N with
            | O => 10%N :: replaceFencesFrom 0 (96 :: 96 :: 96 :: 106 :: 115 :: 111 :: 110 :: rest)%N
            | S k => replaceFencesFrom k (96 :: 96 :: 96 :: 106 :: 115 :: 111 :: 110 :: rest)%N
            end).
    rewrite H4.
    change (replaceFencesFrom 3 (96 :: 96 :: 96 :: 106 :: 115 :: 111 :: 110 :: rest)%N)
      with (replaceFencesFrom 0 ([106; 115; 111; 110]%N ++ rest)).
    rewrite replace_plain_strict; [reflexivity|].
    repeat constructor; discriminate. }
  rewrite H. unfold trim.
  change (trimStart (js "json" ++ replaceFencesFrom 0 rest))
    with (js "json" ++ replaceFencesFrom 0 rest).
  rewrite List.rev_app_distr.
  change (List.rev (js "json")) with ([] ++ 110%N :: [111; 115; 106]%N).
  rewrite List.app_nil_l.
  destruct (trimStart_keeps [111; 115; 106]%N 110%N (List.rev (replaceFencesFrom 0 rest)))
    as [s' Hs']; [reflexivity|].
  rewrite Hs'. rewrite List.rev_app_distr. now exists (List.rev s').
Qed.

Lemma model_rejects_json_tag (t : list N) : Json.parse (js "json" ++ t) = None.
Proof.
  unfold Json.parse. rewrite Nat.add_1_r. reflexivity.
Qed.

(** X7: a reply whose [```json] fence comes right after a line feed is not
    unwrapped: the cleaning removes the line feed and the backticks and
    leaves the tag [json] in front of the text, so a JSON parser rejects it
    and the Classifier answers with its fallback, whatever the reply holds. *)
Theorem fence_after_line_break_gives_fallback
    (JSON_parse : list N -> option JValue) (imageUrl rest : list N) :
  (forall t, JSON_parse (js "json" ++ t) = None) ->
  analyzeImageFromUrl JSON_parse imageUrl (Returned (10%N :: js "```json" ++ rest))
  = Normal classifierFallback.
Proof.
  intros Hp. apply ClassifierFacts.analyze_unparsable.
  destruct (cleaned_after_line_break rest) as [t ->]. apply Hp.
Qed.

Lemma fence_after_line_break_gives_fallback_witness :
  let url := js "https://storage.example/waste-analysis/1.jpg" in
  let rest := [10%N] ++ jq "{'classification':'recycle','confidence':91}" ++ [10%N] ++ js "```" in
  (forall t, Json.parse (js "json" ++ t) = None)
  /\ analyzeImageFromUrl Json.parse url (Returned (10%N :: js "```json" ++ rest))
     = Normal classifierFallback.
Proof.
  intros url rest. split; [exact model_rejects_json_tag|].
  exact (fence_after_line_break_gives_fallback Json.parse url rest model_rejects_json_tag).
Defined.

#[local] Arguments js : simpl never.
#[local] Arguments startsWith : simpl never.

(** X8: whatever the storage collaborator and [fetch] do, the Uploader
    either returns a non-empty URL that begins with [https://], the one the
    collaborator gave, or throws the one generic upload failure; a rejection
    of [fetch] or of the upload is not told apart from a bad URL. *)
Theorem upload_returns_https_or_fails (fetched : Outcome unit)
    (uploaded : Outcome (option (list N))) :
  (exists u, uploadImageToStorage fetched uploaded = Normal u
      /\ uploaded = Returned (Some u) /\ fetched = Returned tt
      /\ startsWith u (js "https://") = true /\ u <> [])
  \/ (uploadImageToStorage fetched uploaded = Throw uploadFailure
      /\ ((exists reason, fetched = Rejected reason)
          \/ (exists reason, uploaded = Rejected reason)
          \/ uploaded = Returned None
          \/ (exists u, uploaded = Returned (Some u)
                /\ startsWith u (js "https://") = false))).
Proof.
  unfold uploadImageToStorage.
  destruct fetched as [[]|reason]; [|right; split; [reflexivity | eauto]].
  destruct uploaded as [[u|]|reason];
    [|right; split; [reflexivity | auto]|right; split; [reflexivity | eauto]].
  cbn. destruct (startsWith u (js "https://")) eqn:Hu.
  - destruct u as [|c u]; [cbv in Hu; discriminate Hu|].
    left. exists (c :: u).
    split; [reflexivity|]. split; [reflexivity|]. split; [reflexivity|].
    split; [exact Hu | discriminate].
  - right. rewrite orb_true_r. split; [reflexivity|].
    right; right; right. eauto.
Qed.

(** X9: for a non-empty [https://] URL and a reply that parses, after the
    cleaning, to a value whose classification is ["recycle"] or ["trash"],
    the Classifier returns that value as it was parsed, with every field the
    reply carried. *)
Theorem valid_reply_is_returned_unchanged
    (JSON_parse : list N -> option JValue) (imageUrl text : list N) (v : JValue) :
  imageUrl <> [] -> startsWith imageUrl (js "https://") = true ->
  JSON_parse (cleanedText text) = Some v -> validClassification v ->
  analyzeImageFromUrl JSON_parse imageUrl (Returned text) = Normal v.
Proof.
  intros Hne Hs Hp Hv.
  rewrite (ClassifierFacts.analyze_parsed _ _ _ _ Hp).
  rewrite Hs. destruct imageUrl as [|c u]; [congruence|]. cbn [falsyString orb negb].
  destruct v as [| | | | |fields];
    try (destruct Hv as [Hv|Hv]; discriminate Hv).
  apply ClassifierFacts.classification_test in Hv.
  unfold field in Hv. now rewrite Hv.
Qed.

Lemma valid_reply_is_returned_unchanged_witness :
  let url := js "https://storage.example/waste-analysis/1.jpg" in
  let body := jq "{'classification':'recycle','confidence':91,'model':'v2'}" in
  let text := js "```json" ++ [10%N] ++ body ++ [10%N] ++ js "```" in
  let v := JObj [ (js "classification", JStr (js "recycle"));
                  (js "confidence", JNum (inject_Z 91));
                  (js "model", JStr (js "v2")) ] in
  url <> [] /\ startsWith url (js "https://") = true
  /\ Json.parse (cleanedText text) = Some v /\ validClassification v
  /\ analyzeImageFromUrl Json.parse url (Returned text) = Normal v.
Proof.
  intros url body text v.
  assert (H1 : url <> []) by discriminate.
  assert (H2 : startsWith url (js "https://") = true) by (vm_compute; reflexivity).
  assert (H3 : Json.parse (cleanedText text) = Some v) by (vm_compute; reflexivity).
  assert (H4 : validClassification v) by (left; reflexivity).
  repeat (split; [assumption|]).
  exact (valid_reply_is_returned_unchanged Json.parse url text v H1 H2 H3 H4).
Defined.

End ReplyFacts.

(** * More on the streaming loop *)

Module SessionFacts.
Import Scoring Streaming Display.

Lemma analyze_classified (P : list N -> option JValue) (imageUrl : list N)
    (generated : Outcome (list N)) (v : JValue) :
  analyzeImageFromUrl P imageUrl generated = Normal v -> validClassification v.
Proof.
  destruct generated as [text|reason].
  - destruct (P (cleanedText text)) as [parsed|] eqn:Hp.
    + rewrite (ClassifierFacts.analyze_parsed _ _ _ _ Hp).
      destruct (falsyString (Some imageUrl) || negb (startsWith imageUrl (js "https://")));
        [intros [= <-]; apply ClassifierFacts.fallback_classification|].
      destruct parsed as [| | | | |fields];
        try (intros [= <-]; apply ClassifierFacts.fallback_classification).
      destruct (falsy (own fields (js "classification"))
                || negb (includes [js "recycle"; js "trash"]
                           (own fields (js "classification")))) eqn:E;
        intros [= <-]; [apply ClassifierFacts.fallback_classification|].
      now apply ClassifierFacts.classification_test.
    + rewrite (ClassifierFacts.analyze_unparsable _ _ _ Hp).
      intros [= <-]. apply ClassifierFacts.fallback_classification.
  - rewrite ClassifierFacts.analyze_rejected.
    intros [= <-]. apply ClassifierFacts.fallback_classification.
Qed.

Lemma analyzeFrame_classified (P : list N -> option JValue) (fetched : Outcome unit)
    (uploaded : Outcome (option (list N))) (generated : Outcome (list N)) :
  validClassification (analyzeFrame P fetched uploaded generated).
Proof.
  pose proof (StreamingFacts.analyzeFrame_cases P fetched uploaded generated) as H.
  destruct (uploadImageToStorage fetched uploaded) as [imageUrl|e].
  - now apply analyze_classified in H.
  - rewrite H. right. reflexivity.
Qed.

Lemma clear_fields (w : World) :
  analysisResult (clearIntervalOfRef w) = analysisResult w
  /\ showResult (clearIntervalOfRef w) = showResult w
  /\ userAnswer (clearIntervalOfRef w) = userAnswer w
  /\ isCameraMode (clearIntervalOfRef w) = isCameraMode w
  /\ stream (clearIntervalOfRef w) = stream w
  /\ isStreamingAnalysis (clearIntervalOfRef w) = isStreamingAnalysis w
  /\ lastAnalysisTime (clearIntervalOfRef w) = lastAnalysisTime w
  /\ nextTimerId (clearIntervalOfRef w) = nextTimerId w
  /\ inFlight (clearIntervalOfRef w) = inFlight w
  /\ stoppedStreams (clearIntervalOfRef w) = stoppedStreams w.
Proof.
  unfold clearIntervalOfRef.
  destruct (analysisIntervalRef w) as [id|]; [|repeat split].
  destruct (Nat.eqb id 0); repeat split.
Qed.

Lemma classified_step (P : list N -> option JValue) (w : World) (e : Event) :
  match analysisResult w with Some v => validClassification v | None => True end ->
  match analysisResult (step P e w) with Some v => validClassification v | None => True end.
Proof.
  intros Hw.
  destruct e; simpl.
  - exact Hw.
  - unfold stopCamera.
    destruct capturedStream;
      rewrite (proj1 (clear_fields _)); exact Hw.
  - unfold startStreamingAnalysis. simpl. exact I.
  - unfold stopStreamingAnalysis. rewrite (proj1 (clear_fields _)). exact Hw.
  - exact Hw.
  - unfold resetGame, stopStreamingAnalysis. rewrite (proj1 (clear_fields _)). exact I.
  - destruct (intervals w !! id) as [captured|]; [|exact Hw].
    unfold intervalCallback.
    destruct (now - captured <? 2000); [exact Hw|].
    destruct (falsyString frame); exact Hw.
  - unfold attemptSettles.
    destruct (inFlight w !! k); [|exact Hw].
    simpl. apply analyzeFrame_classified.
Qed.

(** X10: in every state reached through the page, the stored result, when
    there is one, has a classification that is ["recycle"] or ["trash"]:
    whatever the collaborators answer, the overlay and the verdict always
    have a class to show. *)
Theorem stored_result_is_classified (P : list N -> option JValue) (w : World) :
  Reachable P w ->
  match analysisResult w with
  | Some v => validClassification v
  | None => True
  end.
Proof.
  induction 1 as [|w e _ IH _]; [exact I|].
  now apply (classified_step P w e).
Qed.

Lemma stored_result_is_classified_witness :
  let w := step Json.parse
             (AttemptSettles 0 (Returned tt) (Rejected (js "Failed to fetch")) (Returned []))
             (step Json.parse (TimerFires 1 1700000000000 (Some (js "data:image/jpeg;base64,/9j/4AAQ")))
                (step Json.parse ClickStartAnalysis
                   (step Json.parse (CameraStarted 1) initialWorld))) in
  Reachable Json.parse w /\ validClassification streamingFallback.
Proof.
  intros w.
  assert (H : Reachable Json.parse w).
  { repeat (apply Reachable_step; [|reflexivity]). apply Reachable_initial. }
  split; [exact H|].
  exact (stored_result_is_classified Json.parse w H).
Defined.

(** X11: in every state reached through the page at most one interval timer
    is live; it is the one the ref holds, and the state then says that the
    analysis is streaming. *)
Theorem at_most_one_timer (P : list N -> option JValue) (w : World) (i j : nat) (ci cj : Z) :
  Reachable P w ->
  intervals w !! i = Some ci -> intervals w !! j = Some cj ->
  i = j /\ analysisIntervalRef w = Some i /\ isStreamingAnalysis w = true.
Proof.
  intros Hw Hi Hj.
  destruct (StreamingFacts.Reachable_timerOwned P w Hw) as (_ & Hidle & Hown).
  assert (Href : forall k c, intervals w !! k = Some c -> analysisIntervalRef w = Some k).
  { intros k c Hk. destruct (analysisIntervalRef w) as [id|].
    - destruct Hown as [_ Hothers].
      destruct (decide (k = id)) as [->|Hne]; [reflexivity|].
      rewrite (Hothers k Hne) in Hk. discriminate Hk.
    - rewrite Hown, lookup_empty in Hk. discriminate Hk. }
  pose proof (Href i ci Hi) as Ri. pose proof (Href j cj Hj) as Rj.
  split; [congruence|]. split; [exact Ri|].
  destruct (isStreamingAnalysis w); [reflexivity|].
  rewrite (Hidle eq_refl), lookup_empty in Hi. discriminate Hi.
Qed.

Lemma at_most_one_timer_witness :
  let w := step Json.parse ClickStartAnalysis
             (step Json.parse ClickStopAnalysis
                (step Json.parse ClickStartAnalysis
                   (step Json.parse (CameraStarted 1) initialWorld))) in
  Reachable Json.parse w /\ intervals w !! 2%nat = Some 0
  /\ analysisIntervalRef w = Some 2%nat /\ isStreamingAnalysis w = true.
Proof.
  intros w.
  assert (H : Reachable Json.parse w).
  { repeat (apply Reachable_step; [|reflexivity]). apply Reachable_initial. }
  assert (H2 : intervals w !! 2%nat = Some 0) by reflexivity.
  split; [exact H|]. split; [exact H2|].
  exact (proj2 (at_most_one_timer Json.parse w 2 2 0 0 H H2 H2)).
Defined.

(** X12: [startStreamingAnalysis] does not cancel a timer that is already
    running.  Called twice in a row, it leaves the first timer live and
    unreachable: the ref holds only the second, so [stopStreamingAnalysis]
    cancels only that one, and a further stop finds the ref empty. *)
Theorem second_start_orphans_the_first_timer (w : World) :
  let twice := startStreamingAnalysis (startStreamingAnalysis w) in
  let stopped := stopStreamingAnalysis twice in
  analysisIntervalRef twice = Some (S (nextTimerId w))
  /\ intervals stopped !! nextTimerId w = Some (lastAnalysisTime w)
  /\ intervals stopped !! S (nextTimerId w) = None
  /\ analysisIntervalRef stopped = None
  /\ isStreamingAnalysis stopped = false
  /\ stopStreamingAnalysis stopped = stopped.
Proof.
  intros twice stopped. subst stopped twice.
  unfold stopStreamingAnalysis, startStreamingAnalysis, clearIntervalOfRef; simpl.
  split; [reflexivity|]. split.
  - rewrite lookup_delete_ne by lia. rewrite lookup_insert_ne by lia.
    apply lookup_insert_eq.
  - split; [apply lookup_delete_eq|]. repeat split.
Qed.

(** X13: the throttle of a session opens once and for all.  After one tick
    of a timer got past it, every later tick of the same timer that captures
    a frame starts an attempt too, however soon it follows. *)
Theorem throttle_opens_once_and_for_all (P : list N -> option JValue)
    (w : World) (id : nat) (captured now later : Z) (frame frame' : option (list N)) :
  intervals w !! id = Some captured ->
  passesThrottle captured now frame = true ->
  now <= later -> falsyString frame' = false ->
  let w1 := step P (TimerFires id now frame) w in
  let w2 := step P (TimerFires id later frame') w1 in
  inFlight w2 = inFlight w ++ [mkAttempt now frame; mkAttempt later frame']
  /\ lastAnalysisTime w2 = later.
Proof.
  intros Hid Hpass Hle Hframe w1 w2.
  destruct (StreamingFacts.gate_ignores_earlier_attempts P w id captured now frame Hid)
    as (Hi1 & Hp1 & _).
  destruct (Hp1 Hpass) as [Hf1 _]. fold w1 in Hi1, Hf1.
  assert (Hid1 : intervals w1 !! id = Some captured) by now rewrite Hi1.
  assert (Hpass' : passesThrottle captured later frame' = true).
  { unfold passesThrottle in *. rewrite Hframe.
    apply andb_prop in Hpass as [Hn _]. apply negb_true_iff in Hn.
    apply Z.ltb_ge in Hn. rewrite andb_true_r. apply negb_true_iff.
    apply Z.ltb_ge. lia. }
  destruct (StreamingFacts.gate_ignores_earlier_attempts P w1 id captured later frame' Hid1)
    as (_ & Hp2 & _).
  destruct (Hp2 Hpass') as [Hf2 Ht2]. fold w2 in Hf2, Ht2.
  split; [|exact Ht2]. rewrite Hf2, Hf1, <- List.app_assoc. reflexivity.
Qed.

Lemma throttle_opens_once_and_for_all_witness :
  let T := 1700000000000 in
  let frame := Some (js "data:image/jpeg;base64,/9j/4AAQ") in
  let w := step Json.parse ClickStartAnalysis (step Json.parse (CameraStarted 1) initialWorld) in
  intervals w !! 1%nat = Some 0
  /\ passesThrottle 0 T frame = true /\ T <= T + 1 /\ falsyString frame = false
  /\ lastAnalysisTime
       (step Json.parse (TimerFires 1 (T + 1) frame)
          (step Json.parse (TimerFires 1 T frame) w)) = T + 1.
Proof.
  intros T frame w.
  assert (H1 : intervals w !! 1%nat = Some 0) by reflexivity.
  assert (H2 : passesThrottle 0 T frame = true) by reflexivity.
  assert (H3 : T <= T + 1) by lia.
  assert (H4 : falsyString frame = false) by reflexivity.
  repeat (split; [assumption|]).
  exact (proj2 (throttle_opens_once_and_for_all Json.parse w 1 0 T (T + 1) frame frame
                  H1 H2 H3 H4)).
Defined.

(** X14: pending attempts are not ordered.  With two attempts in flight,
    when the one that started later settles first and the earlier one
    settles after it, the stored result is the one of the earlier frame. *)
Theorem earlier_attempt_can_overwrite_later (P : list N -> option JValue)
    (w : World) (a b : Attempt) (rest : list Attempt)
    (fa fb : Outcome unit) (ua ub : Outcome (option (list N)))
    (ga gb : Outcome (list N)) :
  inFlight w = a :: b :: rest ->
  let w' := run P [AttemptSettles 1 fb ub gb; AttemptSettles 0 fa ua ga] w in
  analysisResult (step P (AttemptSettles 1 fb ub gb) w) = Some (analyzeFrame P fb ub gb)
  /\ analysisResult w' = Some (analyzeFrame P fa ua ga)
  /\ inFlight w' = rest.
Proof.
  intros Hw w'. subst w'. simpl. unfold attemptSettles. rewrite Hw. simpl.
  repeat split.
Qed.

Lemma earlier_attempt_can_overwrite_later_witness :
  let T := 1700000000000 in
  let frame := Some (js "data:image/jpeg;base64,/9j/4AAQ") in
  let w := run Json.parse [CameraStarted 1; ClickStartAnalysis;
                           TimerFires 1 T frame; TimerFires 1 (T + 500) frame] initialWorld in
  let url := Returned (Some (js "https://storage.example/waste-analysis/1.jpg")) in
  let old := Returned (jq "{'classification':'trash','confidence':80}") in
  let new := Returned (jq "{'classification':'recycle','confidence':95}") in
  inFlight w = [mkAttempt T frame; mkAttempt (T + 500) frame]
  /\ analysisResult
       (run Json.parse [AttemptSettles 1 (Returned tt) url new;
                        AttemptSettles 0 (Returned tt) url old] w)
     = Some (analyzeFrame Json.parse (Returned tt) url old).
Proof.
  intros T frame w url old new.
  assert (H : inFlight w = [mkAttempt T frame; mkAttempt (T + 500) frame]) by reflexivity.
  split; [exact H|].
  exact (proj1 (proj2 (earlier_attempt_can_overwrite_later Json.parse w _ _ _
                         (Returned tt) (Returned tt) url url old new H))).
Defined.

Lemma categoryName_eqb (a c : Category) :
  jseqb (categoryName a) (categoryName c) = Category_eqb a c.
Proof. destruct a, c; reflexivity. Qed.

Lemma asCategory_name (s : list N) (c : Category) :
  asCategory s = Some c -> s = categoryName c.
Proof.
  unfold asCategory.
  destruct (jseqb s (js "recycle")) eqn:E1.
  - intros [= <-]. now apply ClassifierFacts.jseqb_eq.
  - destruct (jseqb s (js "trash")) eqn:E2; [|discriminate].
    intros [= <-]. now apply ClassifierFacts.jseqb_eq.
Qed.

(** A value of the declared shape is an object, and its classification is
    the name of its category. *)
Lemma typed_result_fields (v : JValue) (r : AnalysisResult) :
  asAnalysisResult v = Some r ->
  falsy (Some v) = false
  /\ field v (js "classification") = Some (JStr (categoryName (classification r))).
Proof.
  unfold asAnalysisResult. destruct v as [| | | | |fields]; try discriminate.
  unfold field.
  destruct (own fields (js "classification")) as [[| | |c| |]|]; try discriminate.
  destruct (own fields (js "confidence")) as [[| |q| | |]|]; try discriminate.
  destruct (own fields (js "explanation")) as [[| | |e| |]|]; try discriminate.
  destruct (own fields (js "tips")) as [[| | | |items|]|]; try discriminate.
  destruct (asCategory c) as [c'|] eqn:Ec; [|discriminate].
  destruct (asInteger q); [|discriminate].
  destruct (asStrings items); [|discriminate].
  intros [= <-]. simpl. split; [reflexivity|].
  now rewrite (asCategory_name c c' Ec).
Qed.

(** X15: answering does not stop the analysis, and the verdict on the page
    is computed from the result that is current when the page renders.  When
    the answer was given against one result and an attempt then settles with
    a result of the other class, the verdict shown turns into the opposite
    of what was scored. *)
Theorem verdict_follows_the_latest_result (P : list N -> option JValue)
    (w : World) (a : Category) (k : nat) (f : Outcome unit)
    (u : Outcome (option (list N))) (g : Outcome (list N))
    (v0 : JValue) (r0 r1 : AnalysisResult) :
  analysisResult w = Some v0 -> asAnalysisResult v0 = Some r0 ->
  (k < length (inFlight w))%nat ->
  asAnalysisResult (analyzeFrame P f u g) = Some r1 ->
  classification r1 <> classification r0 ->
  let answered := step P (ClickAnswer a) w in
  let later := step P (AttemptSettles k f u g) answered in
  verdictShown answered = Some (isCorrect (Some r0) a)
  /\ verdictShown later = Some (negb (isCorrect (Some r0) a))
  /\ isStreamingAnalysis later = isStreamingAnalysis w.
Proof.
  intros Hw H0 Hk H1 Hne answered later.
  subst later answered. cbn [step]. unfold attemptSettles.
  set (res := analyzeFrame P f u g) in *. clearbody res.
  destruct (typed_result_fields v0 r0 H0) as [Hf0 Hc0].
  destruct (typed_result_fields _ r1 H1) as [Hf1 Hc1].
  destruct (lookup_lt_is_Some_2 (inFlight w) k Hk) as [att Hatt].
  split; [|split].
  - unfold verdictShown, answerGiven. cbn [showResult userAnswer analysisResult
      setShowResult setUserAnswer]. rewrite Hw, Hf0, Hc0. cbn [andb negb].
    now rewrite categoryName_eqb.
  - unfold answerGiven. cbn [inFlight setShowResult setUserAnswer]. rewrite Hatt.
    unfold verdictShown. cbn [showResult userAnswer analysisResult
      setAnalysisResult setInFlight setShowResult setUserAnswer].
    rewrite Hf1, Hc1. cbn [andb negb]. rewrite categoryName_eqb.
    unfold isCorrect.
    destruct a, (classification r0), (classification r1); simpl; congruence.
  - unfold answerGiven. cbn [inFlight setShowResult setUserAnswer]. now rewrite Hatt.
Qed.

Lemma verdict_follows_the_latest_result_witness :
  let T := 1700000000000 in
  let frame := Some (js "data:image/jpeg;base64,/9j/4AAQ") in
  let url := Returned (Some (js "https://storage.example/waste-analysis/1.jpg")) in
  let first := Returned (jq "{'classification':'recycle','confidence':91,'explanation':'A can.','tips':[]}") in
  let second := Returned (jq "{'classification':'trash','confidence':84,'explanation':'A wrapper.','tips':[]}") in
  let w := run Json.parse [CameraStarted 1; ClickStartAnalysis;
                           TimerFires 1 T frame; AttemptSettles 0 (Returned tt) url first;
                           TimerFires 1 (T + 500) frame] initialWorld in
  let later := step Json.parse (AttemptSettles 0 (Returned tt) url second)
                 (step Json.parse (ClickAnswer recycle) w) in
  (0 < length (inFlight w))%nat
  /\ verdictShown (step Json.parse (ClickAnswer recycle) w) = Some true
  /\ verdictShown later = Some false.
Proof.
  intros T frame url first second w later.
  assert (Hk : (0 < length (inFlight w))%nat) by (vm_compute; lia).
  split; [exact Hk|].
  pose (r0 := mkAnalysisResult recycle 91 (js "A can.") []).
  pose (r1 := mkAnalysisResult trash 84 (js "A wrapper.") []).
  destruct (verdict_follows_the_latest_result Json.parse w recycle 0 (Returned tt) url second
              (JObj [ (js "classification", JStr (js "recycle"));
                      (js "confidence", JNum (inject_Z 91));
                      (js "explanation", JStr (js "A can."));
                      (js "tips", JArr []) ]) r0 r1)
    as (H1 & H2 & _); try (vm_compute; reflexivity); try exact Hk; try discriminate.
  split; [exact H1 | exact H2].
Defined.

End SessionFacts.

(** * The camera and the unmount effect *)

Module LifecycleFacts.
Import Streaming Effects.

Lemma stopCamera_fields (s : option nat) (w : World) :
  isCameraMode (stopCamera s w) = false
  /\ isStreamingAnalysis (stopCamera s w) = false
  /\ analysisResult (stopCamera s w) = analysisResult w
  /\ showResult (stopCamera s w) = showResult w
  /\ inFlight (stopCamera s w) = inFlight w
  /\ stream (stopCamera s w) = match s with Some _ => None | None => stream w end
  /\ stoppedStreams (stopCamera s w)
     = match s with Some x => x :: stoppedStreams w | None => stoppedStreams w end
  /\ (intervals w = ∅ -> intervals (stopCamera s w) = ∅).
Proof.
  unfold stopCamera.
  destruct s as [x|];
    match goal with |- context [clearIntervalOfRef ?w0] =>
      destruct (SessionFacts.clear_fields w0) as (H1 & H2 & _ & H4 & H5 & H6 & _ & _ & H9 & H10);
      rewrite H1, H2, H4, H5, H6, H9, H10
    end;
    (repeat split; try reflexivity);
    intros Hi; unfold clearIntervalOfRef; simpl;
    destruct (analysisIntervalRef w) as [id|]; simpl; try exact Hi;
    destruct (Nat.eqb id 0); simpl; try exact Hi;
    rewrite Hi; apply delete_empty.
Qed.

(** Two commits are enough: a third changes nothing. *)
Lemma settle_stable (m : Mounted) : commit (settle m) = settle m.
Proof.
  unfold settle.
  assert (Hfix : forall x, stream (world x) = cleanupStream x -> commit x = x).
  { intros x Hx. unfold commit. now rewrite bool_decide_eq_true_2. }
  destruct (decide (stream (world m) = cleanupStream m)) as [He|Hne].
  { now rewrite !(Hfix m He). }
  assert (H1 : commit m = mkMounted (stopCamera (cleanupStream m) (world m)) (stream (world m))).
  { unfold commit. now rewrite bool_decide_eq_false_2. }
  rewrite H1.
  destruct (stopCamera_fields (cleanupStream m) (world m)) as (_ & _ & _ & _ & _ & Hs & _).
  destruct (cleanupStream m) as [c|] eqn:Ec.
  - destruct (stream (world m)) as [x|] eqn:Ex.
    + assert (H2 : commit (mkMounted (stopCamera (Some c) (world m)) (Some x))
                   = mkMounted (stopCamera (Some x) (stopCamera (Some c) (world m))) None).
      { unfold commit. cbn [world cleanupStream]. rewrite Hs.
        now rewrite bool_decide_eq_false_2 by discriminate. }
      rewrite H2. apply Hfix. cbn [world cleanupStream].
      now destruct (stopCamera_fields (Some x) (stopCamera (Some c) (world m)))
        as (_ & _ & _ & _ & _ & -> & _).
    + rewrite (Hfix (mkMounted _ None)) by (cbn [world cleanupStream]; exact Hs).
      apply Hfix. cbn [world cleanupStream]. exact Hs.
  - rewrite (Hfix (mkMounted _ _)) by (cbn [world cleanupStream]; exact Hs).
    apply Hfix. cbn [world cleanupStream]. exact Hs.
Qed.

Lemma camera_mode_facts (P : list N -> option JValue) (m : Mounted) (mediaStream : nat) :
  stream (world m) = cleanupStream m ->
  stream (world m) <> Some mediaStream ->
  isCameraMode (world (dispatch P (CameraStarted mediaStream) m)) = false
  /\ isStreamingAnalysis (world (dispatch P (CameraStarted mediaStream) m)) = false
  /\ stream (world (dispatch P (CameraStarted mediaStream) m))
     = cleanupStream (dispatch P (CameraStarted mediaStream) m).
Proof.
  intros Hsettled Hnew. unfold dispatch.
  pose proof (settle_stable (mkMounted (step P (CameraStarted mediaStream) (world m))
                               (cleanupStream m))) as Hstable.
  set (x := settle _) in *.
  assert (Hs : stream (world x) = cleanupStream x).
  { unfold commit in Hstable.
    destruct (bool_decide (stream (world x) = cleanupStream x)) eqn:E.
    - now apply bool_decide_eq_true in E.
    - exfalso. apply (f_equal cleanupStream) in Hstable. cbn [cleanupStream] in Hstable.
      apply bool_decide_eq_false in E. congruence. }
  split; [|split; [|exact Hs]].
  - subst x. unfold settle.
    set (w1 := step P (CameraStarted mediaStream) (world m)).
    assert (H1 : commit (mkMounted w1 (cleanupStream m))
                 = mkMounted (stopCamera (cleanupStream m) w1) (Some mediaStream)).
    { unfold commit. cbn [world cleanupStream].
      change (stream w1) with (Some mediaStream).
      rewrite bool_decide_eq_false_2 by congruence. reflexivity. }
    rewrite H1. unfold commit.
    destruct (bool_decide _); cbn [world]; apply stopCamera_fields.
  - subst x. unfold settle.
    set (w1 := step P (CameraStarted mediaStream) (world m)).
    assert (H1 : commit (mkMounted w1 (cleanupStream m))
                 = mkMounted (stopCamera (cleanupStream m) w1) (Some mediaStream)).
    { unfold commit. cbn [world cleanupStream].
      change (stream w1) with (Some mediaStream).
      rewrite bool_decide_eq_false_2 by congruence. reflexivity. }
    rewrite H1. unfold commit.
    destruct (bool_decide _); cbn [world]; apply stopCamera_fields.
Qed.

(** X16: camera mode does not survive the start of the camera.  When
    [startCamera] has stored a new stream and React has run the effects of
    the resulting render, the cleanup of the unmount effect has called the
    previous [stopCamera]: camera mode is off again and no analysis streams.
    If no stream was stored before, the new one stays stored with its tracks
    running; if one was stored, both the old and the new one are stopped and
    none is stored. *)
Theorem camera_mode_does_not_survive_the_start (P : list N -> option JValue)
    (m : Mounted) (mediaStream : nat) :
  stream (world m) = cleanupStream m ->
  stream (world m) <> Some mediaStream ->
  let m' := dispatch P (CameraStarted mediaStream) m in
  isCameraMode (world m') = false
  /\ isStreamingAnalysis (world m') = false
  /\ stream (world m') = cleanupStream m'
  /\ match stream (world m) with
     | None =>
         stream (world m') = Some mediaStream
         /\ stoppedStreams (world m') = stoppedStreams (world m)
     | Some old =>
         stream (world m') = None
         /\ stoppedStreams (world m') = mediaStream :: old :: stoppedStreams (world m)
     end.
Proof.
  intros Hsettled Hnew m'. subst m'. unfold dispatch, settle.
  set (w1 := step P (CameraStarted mediaStream) (world m)).
  assert (Hs1 : stream w1 = Some mediaStream) by reflexivity.
  assert (Hk1 : stoppedStreams w1 = stoppedStreams (world m)) by reflexivity.
  assert (H1 : commit (mkMounted w1 (cleanupStream m))
               = mkMounted (stopCamera (cleanupStream m) w1) (Some mediaStream)).
  { unfold commit. cbn [world cleanupStream]. rewrite Hs1.
    rewrite bool_decide_eq_false_2 by congruence. reflexivity. }
  rewrite H1. rewrite <- Hsettled in *.
  destruct (stopCamera_fields (stream (world m)) w1) as (Hc & Hst & _ & _ & _ & Hs & Hk & _).
  destruct (stream (world m)) as [old|] eqn:Eold.
  - assert (H2 : commit (mkMounted (stopCamera (Some old) w1) (Some mediaStream))
                 = mkMounted (stopCamera (Some mediaStream) (stopCamera (Some old) w1)) None).
    { unfold commit. cbn [world cleanupStream]. rewrite Hs.
      rewrite bool_decide_eq_false_2 by discriminate. reflexivity. }
    rewrite H2. cbn [world cleanupStream].
    destruct (stopCamera_fields (Some mediaStream) (stopCamera (Some old) w1))
      as (Hc' & Hst' & _ & _ & _ & Hs' & Hk' & _).
    rewrite Hc', Hst', Hs', Hk', Hk, Hk1. repeat split.
  - assert (H2 : commit (mkMounted (stopCamera None w1) (Some mediaStream))
                 = mkMounted (stopCamera None w1) (Some mediaStream)).
    { unfold commit. cbn [world cleanupStream]. rewrite Hs, Hs1.
      now rewrite bool_decide_eq_true_2. }
    rewrite H2. cbn [world cleanupStream].
    rewrite Hc, Hst, Hs, Hk, Hs1, Hk1. repeat split.
Qed.

Lemma camera_mode_does_not_survive_the_start_witness :
  let first := dispatch Json.parse (CameraStarted 1) mountedInitially in
  let second := dispatch Json.parse (CameraStarted 2) first in
  stream (world mountedInitially) = cleanupStream mountedInitially
  /\ stream (world mountedInitially) <> Some 1%nat
  /\ isCameraMode (world first) = false
  /\ stream (world first) = Some 1%nat
  /\ stoppedStreams (world first) = []
  /\ isCameraMode (world second) = false
  /\ stream (world second) = None
  /\ stoppedStreams (world second) = [2%nat; 1%nat].
Proof.
  cbv zeta.
  assert (H1 : stream (world mountedInitially) = cleanupStream mountedInitially)
    by reflexivity.
  assert (H2 : stream (world mountedInitially) <> Some 1%nat) by discriminate.
  split; [exact H1|]. split; [exact H2|].
  destruct (camera_mode_does_not_survive_the_start Json.parse mountedInitially 1 H1 H2)
    as (Ha & _ & Hb & Hc & Hd).
  split; [exact Ha|]. split; [exact Hc|]. split; [exact Hd|].
  assert (H3 : stream (world (dispatch Json.parse (CameraStarted 1) mountedInitially))
               <> Some 2%nat) by (rewrite Hc; discriminate).
  destruct (camera_mode_does_not_survive_the_start Json.parse
              (dispatch Json.parse (CameraStarted 1) mountedInitially) 2 Hb H3)
    as (Ha' & _ & _ & He).
  rewrite Hc in He. destruct He as [He1 He2].
  split; [exact Ha'|]. split; [exact He1|]. rewrite He2, Hd. reflexivity.
Defined.

(** X17: as long as every event finds the effects of the previous one run,
    and every camera start brings a new stream, the page is never in camera
    mode when an event arrives: it never offers to start the live analysis,
    no interval timer is ever live, no frame is ever uploaded and no result
    is ever stored. *)
Theorem live_analysis_is_never_offered (P : list N -> option JValue) (m : Mounted) :
  Settled P m ->
  isCameraMode (world m) = false
  /\ isStreamingAnalysis (world m) = false
  /\ intervals (world m) = ∅
  /\ inFlight (world m) = []
  /\ analysisResult (world m) = None
  /\ showResult (world m) = false
  /\ stream (world m) = cleanupStream m
  /\ offeredMounted (world m) ClickStartAnalysis = false.
Proof.
  intros Hm.
  enough (H : isCameraMode (world m) = false
              /\ isStreamingAnalysis (world m) = false
              /\ intervals (world m) = ∅
              /\ inFlight (world m) = []
              /\ analysisResult (world m) = None
              /\ showResult (world m) = false
              /\ stream (world m) = cleanupStream m).
  { destruct H as (Hc & H). repeat split; try apply H; try exact Hc.
    unfold offeredMounted, offered. now rewrite Hc. }
  induction Hm as [|m e _ IH He]; [repeat split|].
  destruct IH as (Hc & Hst & Hi & Hf & Hr & Hsh & Hs).
  assert (Hquiet : forall x, world x = world m -> cleanupStream x = cleanupStream m ->
            isCameraMode (world (settle x)) = false
            /\ isStreamingAnalysis (world (settle x)) = false
            /\ intervals (world (settle x)) = ∅
            /\ inFlight (world (settle x)) = []
            /\ analysisResult (world (settle x)) = None
            /\ showResult (world (settle x)) = false
            /\ stream (world (settle x)) = cleanupStream (settle x)).
  { intros x Hw Hcl.
    assert (Hx : commit x = x).
    { unfold commit. rewrite Hw, Hcl. now rewrite bool_decide_eq_true_2. }
    unfold settle. rewrite Hx, Hx, Hw, Hcl. repeat split; assumption. }
  destruct e; unfold offeredMounted, offered in He; rewrite ?Hc, ?Hsh in He;
    try discriminate He.
  - (* the camera started with a new stream *)
    apply negb_true_iff, bool_decide_eq_false in He.
    destruct (camera_mode_facts P m mediaStream Hs He) as (Ha & Hb & Hd).
    unfold dispatch, settle in *.
    set (w1 := step P (CameraStarted mediaStream) (world m)) in *.
    assert (Hw1 : intervals w1 = ∅ /\ inFlight w1 = [] /\ analysisResult w1 = None
                  /\ showResult w1 = false) by (repeat split; assumption).
    destruct Hw1 as (Hi1 & Hf1 & Hr1 & Hsh1).
    assert (Hkeep : forall s y, intervals y = ∅ -> inFlight y = [] ->
              analysisResult y = None -> showResult y = false ->
              intervals (stopCamera s y) = ∅ /\ inFlight (stopCamera s y) = []
              /\ analysisResult (stopCamera s y) = None
              /\ showResult (stopCamera s y) = false).
    { intros s y Hy1 Hy2 Hy3 Hy4.
      destruct (stopCamera_fields s y) as (_ & _ & E1 & E2 & E3 & _ & _ & E4).
      rewrite E1, E2, E3. auto. }
    split; [exact Ha|]. split; [exact Hb|].
    assert (Hrest : forall x, intervals (world x) = ∅ -> inFlight (world x) = [] ->
              analysisResult (world x) = None -> showResult (world x) = false ->
              intervals (world (commit x)) = ∅ /\ inFlight (world (commit x)) = []
              /\ analysisResult (world (commit x)) = None
              /\ showResult (world (commit x)) = false).
    { intros x X1 X2 X3 X4. unfold commit.
      destruct (bool_decide (stream (world x) = cleanupStream x)); [auto|].
      cbn [world]. now apply Hkeep. }
    destruct (Hrest (mkMounted w1 (cleanupStream m)) Hi1 Hf1 Hr1 Hsh1) as (Y1 & Y2 & Y3 & Y4).
    destruct (Hrest _ Y1 Y2 Y3 Y4) as (Z1 & Z2 & Z3 & Z4).
    repeat split; assumption.
  - (* a timer: none is live *)
    unfold dispatch. cbn [step]. rewrite Hi, lookup_empty. now apply Hquiet.
  - (* an attempt: none is pending *)
    unfold dispatch. cbn [step]. unfold attemptSettles. rewrite Hf, lookup_nil.
    now apply Hquiet.
Qed.

Lemma live_analysis_is_never_offered_witness :
  let m := dispatch Json.parse (CameraStarted 2)
             (dispatch Json.parse (CameraStarted 1) mountedInitially) in
  Settled Json.parse m
  /\ isCameraMode (world m) = false
  /\ offeredMounted (world m) ClickStartAnalysis = false.
Proof.
  cbv zeta.
  assert (H : Settled Json.parse
                (dispatch Json.parse (CameraStarted 2)
                   (dispatch Json.parse (CameraStarted 1) mountedInitially))).
  { apply Settled_dispatch; [|reflexivity].
    apply Settled_dispatch; [|reflexivity].
    apply Settled_initially. }
  split; [exact H|].
  destruct (live_analysis_is_never_offered Json.parse _ H) as (H1 & _ & _ & _ & _ & _ & _ & H8).
  split; [exact H1 | exact H8].
Defined.

End LifecycleFacts.
